(** * accelsender/boot.js: scalar Kalman filter, peak tracking and reporting

    A shallow embedding of [apps/accelsender/boot.js].  The program is
    written once, over an interface [Num] of the JavaScript number
    operations it uses, and read at two instances:

    - [float], Rocq's primitive binary64 numbers: the arithmetic a
      JavaScript engine performs (round to nearest even, NaN, signed
      zeros and infinities).  This is the program; concrete runs
      evaluate here, bit for bit.
    - [xreal], the real numbers extended with one "not a number" value:
      the exact arithmetic in which the filter equations are usually
      read, an idealisation without rounding, overflow or infinities.
      It is used only where a statement says "in exact arithmetic", and
      there only with divisors other than 0: JavaScript answers a
      quotient by zero with an infinity, which [xreal] does not have
      (its quotient by zero and its square root of a negative number
      are not a number).

    Mutable state is passed explicitly: a method returns the updated
    object next to its result, the event handlers take and return the
    module's global variables. *)

From Stdlib Require Import Bool List String ZArith Lia.
From Stdlib Require Import Floats.
From Stdlib Require Import Reals Lra.
Import ListNotations.

(** ** JavaScript numbers *)

Declare Scope js_scope.
Delimit Scope js_scope with js.

Class Num (T : Type) : Type := {
  add : T -> T -> T;
  sub : T -> T -> T;
  mul : T -> T -> T;
  div : T -> T -> T;
  (** [Math.sqrt] *)
  Math_sqrt : T -> T;
  (** the relational operator [>] *)
  gt : T -> T -> bool;
  (** the global function [isNaN], on a number *)
  isNaN : T -> bool;
  (** the literals [NaN], [0] and [1] *)
  NaN : T;
  zero : T;
  one : T
}.

Infix "+" := add : js_scope.
Infix "-" := sub : js_scope.
Infix "*" := mul : js_scope.
Infix "/" := div : js_scope.
Infix ">" := gt : js_scope.

(** The one law of [>] the peak tracker relies on. *)
Class NumLaws (T : Type) {N : Num T} : Prop := {
  gt_irrefl : forall a : T, gt a a = false
}.
Arguments NumLaws T {N}.

(** *** binary64 *)

#[export] Instance float_Num : Num float := {|
  add := PrimFloat.add;
  sub := PrimFloat.sub;
  mul := PrimFloat.mul;
  div := PrimFloat.div;
  Math_sqrt := PrimFloat.sqrt;
  gt := fun a b => PrimFloat.ltb b a;
  isNaN := PrimFloat.is_nan;
  NaN := PrimFloat.nan;
  zero := PrimFloat.zero;
  one := PrimFloat.one
|}.

(** *** exact arithmetic *)

Definition xreal : Type := option R.

Definition xlift2 (f : R -> R -> R) (a b : xreal) : xreal :=
  match a, b with
  | Some p, Some q => Some (f p q)
  | _, _ => None
  end.

(** A quotient by zero is left undefined (JavaScript gives an infinity
    or NaN): what is stated in exact arithmetic keeps its divisors away
    from 0. *)
Definition xdiv (a b : xreal) : xreal :=
  match a, b with
  | Some p, Some q => if Req_dec_T q 0 then None else Some (p / q)%R
  | _, _ => None
  end.

Definition xsqrt (a : xreal) : xreal :=
  match a with
  | Some p => if Rlt_dec p 0 then None else Some (sqrt p)
  | None => None
  end.

Definition xgt (a b : xreal) : bool :=
  match a, b with
  | Some p, Some q => if Rgt_dec p q then true else false
  | _, _ => false
  end.

Definition xisNaN (a : xreal) : bool :=
  match a with
  | Some _ => false
  | None => true
  end.

#[export] Instance xreal_Num : Num xreal := {|
  add := xlift2 Rplus;
  sub := xlift2 Rminus;
  mul := xlift2 Rmult;
  div := xdiv;
  Math_sqrt := xsqrt;
  gt := xgt;
  isNaN := xisNaN;
  NaN := None;
  zero := Some 0%R;
  one := Some 1%R
|}.

(** ** class KalmanFilter (lines 12-99) *)

Module KalmanFilter.
Section Class_.
Context {T : Type} {N : Num T}.
Local Open Scope js_scope.

(** The object's properties. *)
Record t : Type := mk {
  R : T;   (* noise power desirable *)
  Q : T;   (* noise power estimated *)
  A : T;
  C : T;
  B : T;
  cov : T;
  x : T    (* estimated signal without noise *)
}.

(** The constructor's argument: an object whose properties may be
    missing; a missing one takes its default. *)
Record options : Type := {
  opt_R : option T;
  opt_Q : option T;
  opt_A : option T;
  opt_B : option T;
  opt_C : option T
}.

Definition no_options : options :=
  {| opt_R := None; opt_Q := None; opt_A := None; opt_B := None;
     opt_C := None |}.

Definition or_default (o : option T) (d : T) : T :=
  match o with
  | Some v => v
  | None => d
  end.

(** [constructor({ R = 1, Q = 1, A = 1, B = 0, C = 1 } = {})] *)
Definition constructor (o : options) : t :=
  {| R := or_default (opt_R o) one;
     Q := or_default (opt_Q o) one;
     A := or_default (opt_A o) one;
     C := or_default (opt_C o) one;
     B := or_default (opt_B o) zero;
     cov := NaN;
     x := NaN |}.

(** [new KalmanFilter()] *)
Definition new : t := constructor no_options.

(** [predict(u = 0)] *)
Definition predict (this : t) (u : T) : T :=
  A this * x this + B this * u.

(** [uncertainty()] *)
Definition uncertainty (this : t) : T :=
  A this * cov this * A this + R this.

(** [filter(z, u = 0)]: the updated object and the returned value. *)
Definition filter (this : t) (z u : T) : t * T :=
  if isNaN (x this) then
    let x' := (one / C this) * z in
    let cov' := (one / C this) * Q this * (one / C this) in
    let this := mk (R this) (Q this) (A this) (C this) (B this) cov' x' in
    (this, x this)
  else
    (* Compute prediction *)
    let predX := predict this u in
    let predCov := uncertainty this in
    (* Kalman gain *)
    let K := predCov * C this * (one / (C this * predCov * C this + Q this)) in
    (* Correction *)
    let x' := predX + K * (z - C this * predX) in
    let cov' := predCov - K * C this * predCov in
    let this := mk (R this) (Q this) (A this) (C this) (B this) cov' x' in
    (this, x this).

(** [filter(z)], the control left out. *)
Definition filter1 (this : t) (z : T) : t * T := filter this z zero.

(** [lastMeasurement()] *)
Definition lastMeasurement (this : t) : T := x this.

(** [setMeasurementNoise(noise)] *)
Definition setMeasurementNoise (this : t) (noise : T) : t :=
  mk (R this) noise (A this) (C this) (B this) (cov this) (x this).

(** [setProcessNoise(noise)] *)
Definition setProcessNoise (this : t) (noise : T) : t :=
  mk noise (Q this) (A this) (C this) (B this) (cov this) (x this).

(** A sequence of calls [filter(z, u)], in order: the object after the
    last one. *)
Definition filter_seq (this : t) (zus : list (T * T)) : t :=
  fold_left (fun this zu => fst (filter this (fst zu) (snd zu))) zus this.

(** [n] calls [filter(z)] with the same measurement. *)
Definition filter_n (this : t) (z : T) (n : nat) : t :=
  filter_seq this (repeat (z, zero) n).

End Class_.
Arguments t T : clear implicits.
Arguments options T : clear implicits.
End KalmanFilter.

(** ** The module's objects and global variables (lines 101-133) *)

(** An acceleration object [{x, y, z, mag}]: the filtered vectors the
    program builds, and the samples the sensor delivers (of which the
    program reads [x], [y] and [z] only; further properties of a sensor
    object are not modelled). *)
Module Accel.
Record t (T : Type) : Type := mk { x : T; y : T; z : T; mag : T }.
Arguments mk {T} x y z mag.
Arguments x {T} _.
Arguments y {T} _.
Arguments z {T} _.
Arguments mag {T} _.
End Accel.

(** The message [{t: ..., accel: ...}] handed to [gbSend]. *)
Module Message.
Record msg (T : Type) : Type := mk { t : string; accel : Accel.t T }.
Arguments mk {T} t accel.
Arguments t {T} _.
Arguments accel {T} _.
End Message.

(** What one call of [Bluetooth.println] is given: the empty string, or
    [JSON.stringify(message)], kept as the message it serializes. *)
Inductive line (T : Type) : Type :=
| Empty : line T
| Json (message : Message.msg T) : line T.
Arguments Empty {T}.
Arguments Json {T} message.

(** What the program does to the outside: a line printed on the
    Bluetooth link, or an error logged on the console. *)
Inductive output (T : Type) : Type :=
| Println (l : line T) : output T
| ConsoleError : output T.
Arguments Println {T} l.
Arguments ConsoleError {T}.

(** The collaborators at the time of a timer tick: the sample
    [Bangle.getAccel()] would return, and whether a given call of
    [Bluetooth.println] throws. *)
Record Env (T : Type) : Type := {
  getAccel : Accel.t T;
  println_throws : line T -> bool
}.
Arguments getAccel {T} _.
Arguments println_throws {T} _ _.

(** The variables of the module's closure. *)
Record Globals (T : Type) : Type := mkGlobals {
  filterX : KalmanFilter.t T;
  filterY : KalmanFilter.t T;
  filterZ : KalmanFilter.t T;
  max_acceleration : Accel.t T;
  hasData : bool
}.
Arguments mkGlobals {T} _ _ _ _ _.
Arguments filterX {T} _.
Arguments filterY {T} _.
Arguments filterZ {T} _.
Arguments max_acceleration {T} _.
Arguments hasData {T} _.

Section Program.
Context {T : Type} {N : Num T}.
Local Open Scope js_scope.

(** The object literal [{x: 0, y: 0, z: 0, mag: 0}]. *)
Definition zero_accel : Accel.t T := Accel.mk zero zero zero zero.

(** The variables as the module's body initializes them. *)
Definition initial : Globals T :=
  {| filterX := KalmanFilter.new;
     filterY := KalmanFilter.new;
     filterZ := KalmanFilter.new;
     max_acceleration := zero_accel;
     hasData := false |}.

(** [gbSend(message)] (lines 109-116): the [try] block stops at the
    first call that throws, and the [catch] block logs. *)
Definition gbSend (throws : line T -> bool) (message : Message.msg T)
  : list (output T) :=
  if throws Empty then [ConsoleError]
  else if throws (Json message) then [Println Empty; ConsoleError]
  else [Println Empty; Println (Json message)].

(** [filter(accel)] (lines 135-152): the three filters after the call,
    and the object returned. *)
Definition filter (g : Globals T) (accel : Accel.t T)
  : Globals T * Accel.t T :=
  let (fX, filtered_x) := KalmanFilter.filter1 (filterX g) (Accel.x accel) in
  let (fY, filtered_y) := KalmanFilter.filter1 (filterY g) (Accel.y accel) in
  let (fZ, filtered_z) := KalmanFilter.filter1 (filterZ g) (Accel.z accel) in
  let filtered_mag :=
    Math_sqrt (filtered_x * filtered_x +
               filtered_y * filtered_y +
               filtered_z * filtered_z) in
  (mkGlobals fX fY fZ (max_acceleration g) (hasData g),
   Accel.mk filtered_x filtered_y filtered_z filtered_mag).

(** [updateAcceleration(accel)] (lines 158-167). *)
Definition updateAcceleration (g : Globals T) (accel : Accel.t T)
  : Globals T :=
  (* hasData = true *)
  let g :=
    mkGlobals (filterX g) (filterY g) (filterZ g) (max_acceleration g) true in
  let (g, new_accel) := filter g accel in
  let current_max_raw := Accel.mag new_accel in
  let max_raw := Accel.mag (max_acceleration g) in
  if current_max_raw > max_raw then
    mkGlobals (filterX g) (filterY g) (filterZ g) new_accel (hasData g)
  else g.

(** The peak tracker's share of [updateAcceleration], lines 159 and
    162-166: what the function does around the call of [filter], given
    the vector the call returned. *)
Definition consider (g : Globals T) (new_accel : Accel.t T) : Globals T :=
  let hasData' := true in
  let current_max_raw := Accel.mag new_accel in
  let max_raw := Accel.mag (max_acceleration g) in
  if current_max_raw > max_raw then
    mkGlobals (filterX g) (filterY g) (filterZ g) new_accel hasData'
  else
    mkGlobals (filterX g) (filterY g) (filterZ g) (max_acceleration g)
      hasData'.

(** [sendAccelerationData()] (lines 174-190). *)
Definition sendAccelerationData (g : Globals T) (env : Env T)
  : Globals T * list (output T) :=
  let accel := if hasData g then max_acceleration g else getAccel env in
  let update_data := Message.mk "accel" accel in
  let out := gbSend (println_throws env) update_data in
  (mkGlobals (filterX g) (filterY g) (filterZ g) zero_accel false, out).

(** *** The event loop (lines 196-202)

    With [config.enabled] set, the timer calls [sendAccelerationData]
    and every "accel" event calls [updateAcceleration]; events are
    handled one at a time, in the order they arrive. *)
Inductive event : Type :=
| AccelEvent (accel : Accel.t T)
| IntervalTick (env : Env T).

Definition handle (g : Globals T) (ev : event)
  : Globals T * list (output T) :=
  match ev with
  | AccelEvent accel => (updateAcceleration g accel, [])
  | IntervalTick env => sendAccelerationData g env
  end.

Fixpoint run (g : Globals T) (evs : list event)
  : Globals T * list (output T) :=
  match evs with
  | [] => (g, [])
  | ev :: evs' =>
      let (g1, out1) := handle g ev in
      let (g2, out2) := run g1 evs' in
      (g2, out1 ++ out2)
  end.

(** [readJSON("accelsender.json") || {}], as far as the program reads
    it; [interval] only sets the timer's period. *)
Record Config : Type := { enabled : bool; interval : T }.

Definition boot (config : option Config) (evs : list event)
  : Globals T * list (output T) :=
  match config with
  | Some c => if enabled c then run initial evs else (initial, [])
  | None => (initial, [])
  end.

(** The samples of one reporting window, in order. *)
Definition feed (g : Globals T) (samples : list (Accel.t T)) : Globals T :=
  fold_left updateAcceleration samples g.

End Program.

(** ** What the properties are stated with *)

(** *** The spec's peak tracker *)

(** The spec's view of the peak tracker: the stored peak and the flag. *)
Module Spec.
Section PeakSampler.
Context {T : Type} {N : Num T}.

Definition PeakState : Type := (Accel.t T * bool)%type.

(** Follows the spec's words: "returns the current peak and whether any
    sample was observed since the last reset, then resets
    [hasData = false] and peak to a zero vector". *)
Definition flushAndReset (p : PeakState) : (Accel.t T * bool) * PeakState :=
  ((fst p, snd p), (zero_accel, false)).

End PeakSampler.
End Spec.

Section Observations.
Context {T : Type} {N : Num T}.
Local Open Scope js_scope.

(** The peak tracker's part of the global variables. *)
Definition peak_state (g : Globals T) : Spec.PeakState :=
  (max_acceleration g, hasData g).

(** While no sample has been seen, the stored peak is the zero vector. *)
Definition peak_inv (g : Globals T) : Prop :=
  hasData g = false -> max_acceleration g = zero_accel.

(** The messages printed on the link. *)
Fixpoint reports (out : list (output T)) : list (Message.msg T) :=
  match out with
  | [] => []
  | Println (Json m) :: out' => m :: reports out'
  | _ :: out' => reports out'
  end.

(** The timer ticks among the events. *)
Fixpoint ticks (evs : list (@event T)) : nat :=
  match evs with
  | [] => 0
  | IntervalTick _ :: evs' => S (ticks evs')
  | AccelEvent _ :: evs' => ticks evs'
  end.

(** No call of [Bluetooth.println] throws during the events. *)
Fixpoint link_up (evs : list (@event T)) : Prop :=
  match evs with
  | [] => True
  | IntervalTick env :: evs' =>
      (forall l, println_throws env l = false) /\ link_up evs'
  | AccelEvent _ :: evs' => link_up evs'
  end.

(** The vectors [filter] returns for the samples of a window. *)
Fixpoint filtered (g : Globals T) (samples : list (Accel.t T))
  : list (Accel.t T) :=
  match samples with
  | [] => []
  | accel :: samples' =>
      snd (filter g accel) :: filtered (updateAcceleration g accel) samples'
  end.

End Observations.

(** *** Filters in exact arithmetic *)

Section ExactDefinitions.
Local Open Scope R_scope.

(** A filter whose parameters, covariance and estimate are real
    numbers. *)
Definition real_filter (r q a c b cv x0 : R) : KalmanFilter.t xreal :=
  KalmanFilter.mk (Some r) (Some q) (Some a) (Some c) (Some b)
    (Some cv) (Some x0).

(** A filter with real parameters on which [filter] was never called. *)
Definition fresh_filter (r q a c b : R) : KalmanFilter.t xreal :=
  KalmanFilter.mk (Some r) (Some q) (Some a) (Some c) (Some b) NaN NaN.

(** The corrected covariance and estimate, as [filter] computes them. *)
Definition next_cov (r q a c cv : R) : R :=
  let predCov := a * cv * a + r in
  let K := predCov * c * (1 / (c * predCov * c + q)) in
  predCov - K * c * predCov.

Definition next_x (r q a c b cv x0 z u : R) : R :=
  let predX := a * x0 + b * u in
  let predCov := a * cv * a + r in
  let K := predCov * c * (1 / (c * predCov * c + q)) in
  predX + K * (z - c * predX).

(** Real measurements and controls, as numbers of the exact arithmetic. *)
Definition real_inputs (zus : list (R * R)) : list (xreal * xreal) :=
  map (fun zu => (Some (fst zu), Some (snd zu))) zus.

(** The covariance after the calls of a sequence: it does not depend on
    the measurements. *)
Definition cov_after (r q a c cv : R) (n : nat) : R :=
  Nat.iter n (next_cov r q a c) cv.

End ExactDefinitions.

(** *** The default filter in binary64 *)

(** A filter with the default parameters, as [new KalmanFilter()] and the
    calls of [filter] leave it. *)
Definition default_filter (cv x : float) : KalmanFilter.t float :=
  KalmanFilter.mk 1%float 1%float 1%float 1%float 0%float cv x.

(** The covariance [filter] leaves on an initialized default filter: it
    depends on the covariance before only. *)
Definition next_cov64 (cv : float) : float :=
  KalmanFilter.cov
    (fst (KalmanFilter.filter (default_filter cv 0%float) 0%float 0%float)).

(** The gain [K] of that call. *)
Definition gain64 (cv : float) : float :=
  let predCov := (1 * cv * 1 + 1)%float in
  (predCov * 1 * (1 / (1 * predCov * 1 + 1)))%float.

(** The covariance [n] calls after the first, which sets it to 1, and
    the value of [uncertainty()] then. *)
Definition cov64_after (n : nat) : float := Nat.iter n next_cov64 1%float.

Definition uncertainty64_after (n : nat) : float :=
  KalmanFilter.uncertainty (default_filter (cov64_after n) 0%float).

(** Zeros and finite numbers, among the binary64 values. *)
Definition SFfinite (s : spec_float) : bool :=
  match s with
  | S754_zero _ | S754_finite _ _ _ => true
  | _ => false
  end.

Definition positive_finite (s : spec_float) : bool :=
  match s with
  | S754_finite false _ _ => true
  | _ => false
  end.

(** The estimate [x] matches the measurement [m]: it is [m], or [m] is
    -0 and the estimate +0. *)
Definition matches (m x : float) : Prop :=
  x = m \/ (Prim2SF m = S754_zero true /\ x = 0%float).

(** *** Constants of the runs below *)

(** 2^52, the mantissa of the binary64 number 1. *)
Definition two52 : positive := Eval vm_compute in Pos.iter xO 1%positive 52.

(** A window whose samples are at rest, then not a number. *)
Definition idle_window : list (Accel.t float) :=
  [Accel.mk 0%float 0%float 0%float 0%float;
   Accel.mk nan 0%float 0%float nan].

(** *** More of what the properties are stated with *)

(** Transitivity of [>]: what makes the stored peak a maximum. *)
Class NumOrder (T : Type) {N : Num T} : Prop := {
  gt_trans : forall a b c : T, gt a b = true -> gt b c = true -> gt a c = true
}.
Arguments NumOrder T {N}.

Section RunObservations.
Context {T : Type} {N : Num T}.


(** The samples among the events, in order. *)
Fixpoint samples_of (evs : list (@event T)) : list (Accel.t T) :=
  match evs with
  | [] => []
  | AccelEvent accel :: evs' => accel :: samples_of evs'
  | IntervalTick _ :: evs' => samples_of evs'
  end.

(** The same event, its tick met by the collaborators [env0]. *)
Definition with_env (env0 : Env T) (ev : @event T) : @event T :=
  match ev with
  | AccelEvent accel => AccelEvent accel
  | IntervalTick _ => IntervalTick env0
  end.

(** The calls [filter(accel.x)] (or [.y], [.z]) the samples make on one
    axis: the component as measurement, the control left out. *)
Definition axis_inputs (axis : Accel.t T -> T) (samples : list (Accel.t T))
  : list (T * T) :=
  map (fun accel => (axis accel, zero)) samples.

End RunObservations.

(** The golden ratio. *)
Definition golden_ratio : R := ((1 + sqrt 5) / 2)%R.

Section MoreRunObservations.
Context {T : Type} {N : Num T}.

(** Whether a sample has arrived since the last tick, [b] telling it for
    the time before the events. *)
Fixpoint pending (b : bool) (evs : list (@event T)) : bool :=
  match evs with
  | [] => b
  | AccelEvent _ :: evs' => pending true evs'
  | IntervalTick _ :: evs' => pending false evs'
  end.

(** The vectors [filter] returns for the samples of a run. *)
Fixpoint run_filtered (g : Globals T) (evs : list (@event T))
  : list (Accel.t T) :=
  match evs with
  | [] => []
  | AccelEvent accel :: evs' =>
      snd (filter g accel) :: run_filtered (updateAcceleration g accel) evs'
  | IntervalTick env :: evs' =>
      run_filtered (fst (sendAccelerationData g env)) evs'
  end.

(** What [Bangle.getAccel()] would return at the ticks of a run. *)
Fixpoint live_reads (evs : list (@event T)) : list (Accel.t T) :=
  match evs with
  | [] => []
  | AccelEvent _ :: evs' => live_reads evs'
  | IntervalTick env :: evs' => getAccel env :: live_reads evs'
  end.

End MoreRunObservations.

(** A binary64 sample whose three components are finite. *)
Definition finite_sample (accel : Accel.t float) : bool :=
  is_finite (Accel.x accel) && is_finite (Accel.y accel)
  && is_finite (Accel.z accel).

(** *** The spec's estimator *)

(** The two branches of [filter] as the spec words them, with quotients
    where the program multiplies by a reciprocal: to be compared with
    [KalmanFilter.filter]. *)
Module ScalarEstimator.
Section Words.
Context {T : Type} {N : Num T}.
Local Open Scope js_scope.
Import KalmanFilter.

(** "initialize [estimate = measurement / C], [covariance = Q / C^2]" *)
Definition first_call (this : KalmanFilter.t T) (measurement : T)
  : KalmanFilter.t T * T :=
  let estimate := measurement / C this in
  let covariance := Q this / (C this * C this) in
  (mk (R this) (Q this) (A this) (C this) (B this) covariance estimate,
   estimate).

(** The steps 1 to 5 of a later call, the gain
    [K = predCov*C / (C*predCov*C + Q)]. *)
Definition update (this : KalmanFilter.t T) (measurement control : T)
  : KalmanFilter.t T * T :=
  let predEstimate := A this * x this + B this * control in
  let predCov := A this * cov this * A this + R this in
  let K := predCov * C this / (C this * predCov * C this + Q this) in
  let estimate := predEstimate + K * (measurement - C this * predEstimate) in
  let covariance := predCov - K * C this * predCov in
  (mk (R this) (Q this) (A this) (C this) (B this) covariance estimate,
   estimate).

End Words.
End ScalarEstimator.

(** A new filter with the parameters [R], [Q], [A], [B], [C] given. *)
Definition new_with (T : Type) {N : Num T} (r q a b c : T)
  : KalmanFilter.t T :=
  KalmanFilter.constructor
    {| KalmanFilter.opt_R := Some r; KalmanFilter.opt_Q := Some q;
       KalmanFilter.opt_A := Some a; KalmanFilter.opt_B := Some b;
       KalmanFilter.opt_C := Some c |}.

(** *** Runs of calls, and the values of binary64 numbers *)

Section Returned.
Context {T : Type} {N : Num T}.

(** The values a sequence of calls [filter(z, u)] returns, in order. *)
Fixpoint filter_returns (this : KalmanFilter.t T) (zus : list (T * T))
  : list T :=
  match zus with
  | [] => []
  | (z, u) :: zus' =>
      snd (KalmanFilter.filter this z u)
      :: filter_returns (fst (KalmanFilter.filter this z u)) zus'
  end.

End Returned.

(** The real number a finite binary64 value stands for (0 for the
    others). *)
Definition SF2R (s : spec_float) : R :=
  match s with
  | S754_finite sign m e =>
      ((if sign then -1 else 1) * IZR (Zpos m) * powerRZ 2 e)%R
  | _ => 0%R
  end.

Definition float_value (f : float) : R := SF2R (Prim2SF f).

(** The two binary64 values a default filter's uncertainty ends at, and
    the mantissa of the lower one. *)
Definition golden_below : float := 0x1.9e3779b97f4a7p+0%float.

Definition golden_above : float := 0x1.9e3779b97f4a8p+0%float.

Definition golden_mantissa : positive :=
  Eval vm_compute in
    match Prim2SF golden_below with
    | S754_finite _ m _ => m
    | _ => 1%positive
    end.

(** The covariance and the uncertainty [n] calls after the first lie in
    the range the default filter never leaves. *)
Definition in_range64 (n : nat) : bool :=
  PrimFloat.leb 0x1.3c6ef372fe94ep-1 (cov64_after n)
  && PrimFloat.leb (cov64_after n) 1
  && PrimFloat.leb 0x1.9e3779b97f4a7p+0 (uncertainty64_after n)
  && PrimFloat.leb (uncertainty64_after n) 2.

(** * Properties *)

(** ** The two arithmetics *)

(** *** binary64 *)

Lemma Prim2SF_one : Prim2SF 1%float = S754_finite false two52 (-52).
Proof. vm_compute. reflexivity. Qed.

Lemma two52_mul (m : positive) : (two52 * m)%positive = Pos.iter xO m 52.
Proof. reflexivity. Qed.

Lemma digits_shift52 (m : positive) :
  Zdigits2 (Zpos (Pos.iter xO m 52)) = (Zpos (digits2_pos m) + 52)%Z.
Proof. cbn [Pos.iter Zdigits2 digits2_pos]. lia. Qed.

Lemma shr_52 (m : positive) (e : Z) :
  shr (shr_record_of_loc (Zpos (Pos.iter xO m 52)) loc_Exact) e 52
  = (Build_shr_record (Zpos m) false false, (e + 52)%Z).
Proof. reflexivity. Qed.

(** Rounding a mantissa scaled by 2^52, at an exponent lowered by 52,
    gives the mantissa back. *)
Lemma round_scaled_mantissa (s : bool) (m : positive) (e : Z) :
  SpecFloat.bounded prec emax m e = true ->
  binary_round_aux prec emax s (Zpos (two52 * m)) (-52 + e) loc_Exact
  = S754_finite s m e.
Proof.
  intros Hb. unfold SpecFloat.bounded, canonical_mantissa in Hb.
  apply andb_true_iff in Hb. destruct Hb as [Hc He].
  apply Z.eqb_eq in Hc.
  rewrite two52_mul.
  unfold binary_round_aux, shr_fexp.
  rewrite digits_shift52.
  replace (Z.pos (digits2_pos m) + 52 + (-52 + e))%Z
    with (Z.pos (digits2_pos m) + e)%Z by lia.
  rewrite Hc.
  replace (e - (-52 + e))%Z with 52%Z by lia.
  rewrite shr_52.
  cbn [shr_m loc_of_shr_record round_nearest_even Zdigits2].
  replace (-52 + e + 52)%Z with e by lia.
  rewrite Hc, Z.sub_diag.
  cbn [shr shr_record_of_loc shr_m].
  rewrite He. reflexivity.
Qed.

Lemma SFmul_one_l (s : spec_float) :
  valid_binary s = true -> SF64mul (S754_finite false two52 (-52)) s = s.
Proof.
  intros Hv. destruct s as [s|s| |s m e]; try reflexivity.
  unfold SF64mul, SFmul. cbn [xorb].
  apply round_scaled_mantissa. exact Hv.
Qed.

(** [1 * z] is [z], for every binary64 value [z]. *)
Lemma float_mul_1_l (z : float) : (1 * z)%float = z.
Proof.
  apply Prim2SF_inj. rewrite mul_spec, Prim2SF_one.
  apply SFmul_one_l. apply Prim2SF_valid.
Qed.

Lemma float_ltb_irrefl (a : float) : PrimFloat.ltb a a = false.
Proof.
  rewrite ltb_spec. unfold SFltb.
  destruct (Prim2SF a) as [s|s| |s m e]; simpl; try reflexivity.
  - destruct s; reflexivity.
  - destruct s; rewrite Z.compare_refl, Pos.compare_cont_refl; reflexivity.
Qed.

(** A finite number minus itself is +0. *)
Lemma SFsub_self (s : bool) (m : positive) (e : Z) :
  SF64sub (S754_finite s m e) (S754_finite s m e) = S754_zero false.
Proof.
  unfold SF64sub, SFsub. rewrite Z.min_id.
  unfold shl_align. rewrite !Z.sub_diag. reflexivity.
Qed.

(** [is_finite] holds of zeros and finite numbers only; these are not
    NaN. *)
Lemma is_finite_spec (m : float) :
  is_finite m = true -> SFfinite (Prim2SF m) = true.
Proof.
  unfold is_finite, is_nan, is_infinity.
  rewrite !eqb_spec, abs_spec.
  destruct (Prim2SF m) as [s|s| |s mm e]; try reflexivity.
  - destruct s; discriminate.
  - discriminate.
Qed.

Lemma is_nan_spec (x : float) :
  SFfinite (Prim2SF x) = true -> is_nan x = false.
Proof.
  unfold is_nan. rewrite eqb_spec. unfold SFeqb.
  destruct (Prim2SF x) as [s|s| |s mm e]; try discriminate; intros _.
  - reflexivity.
  - cbn. destruct s; rewrite Z.compare_refl, Pos.compare_cont_refl;
      reflexivity.
Qed.

(** A binary64 value that is NaN or equal to 0 is not greater than 0. *)
Lemma nan_or_zero_not_positive (m : float) :
  is_nan m || PrimFloat.eqb m 0 = true -> PrimFloat.ltb 0 m = false.
Proof.
  unfold is_nan. rewrite !eqb_spec, ltb_spec.
  change (Prim2SF 0) with (S754_zero false).
  destruct (Prim2SF m) as [s|s| |s mm e]; try reflexivity.
  - destruct s; discriminate.
  - unfold SFeqb, SFltb. cbn.
    destruct s; rewrite Z.compare_refl, Pos.compare_cont_refl; discriminate.
Qed.

(** [z * 1] is [z] as well. *)
Lemma SFmul_one_r (s : spec_float) :
  valid_binary s = true -> SF64mul s (S754_finite false two52 (-52)) = s.
Proof.
  intros Hv. destruct s as [s|s| |s m e]; try reflexivity.
  - cbn. rewrite xorb_false_r. reflexivity.
  - cbn. rewrite xorb_false_r. reflexivity.
  - unfold SF64mul, SFmul. rewrite xorb_false_r.
    rewrite (Pos.mul_comm m two52), (Z.add_comm e (-52)).
    apply round_scaled_mantissa. exact Hv.
Qed.

Lemma float_mul_1_r (z : float) : (z * 1)%float = z.
Proof.
  apply Prim2SF_inj. rewrite mul_spec, Prim2SF_one.
  apply SFmul_one_r. apply Prim2SF_valid.
Qed.

(** There is one NaN, and it absorbs. *)
Lemma is_nan_SF (x : float) : is_nan x = true -> Prim2SF x = S754_nan.
Proof.
  unfold is_nan. rewrite eqb_spec.
  destruct (Prim2SF x) as [s|s| |s mm e]; try reflexivity;
    unfold SFeqb, SFcompare.
  - discriminate.
  - destruct s; discriminate.
  - destruct s; rewrite Z.compare_refl, Pos.compare_cont_refl; discriminate.
Qed.

Lemma is_nan_eq (x : float) : is_nan x = true -> x = nan.
Proof.
  intros H. apply Prim2SF_inj. rewrite (is_nan_SF x H). reflexivity.
Qed.

Lemma float_add_nan_r (a : float) : (a + nan)%float = nan.
Proof.
  apply Prim2SF_inj. rewrite add_spec.
  change (Prim2SF nan) with S754_nan.
  destruct (Prim2SF a); reflexivity.
Qed.

Lemma float_sub_nan_l (a : float) : (nan - a)%float = nan.
Proof. apply Prim2SF_inj. rewrite sub_spec. reflexivity. Qed.

Lemma float_mul_nan_l (a : float) : (nan * a)%float = nan.
Proof. apply Prim2SF_inj. rewrite mul_spec. reflexivity. Qed.

Lemma float_mul_nan_r (a : float) : (a * nan)%float = nan.
Proof.
  apply Prim2SF_inj. rewrite mul_spec.
  change (Prim2SF nan) with S754_nan.
  destruct (Prim2SF a); reflexivity.
Qed.

(** Numbers that are not finite, the infinities and NaN, stay so in sums
    and products. *)
Lemma is_finite_SF (a : float) : is_finite a = SFfinite (Prim2SF a).
Proof.
  unfold is_finite, is_nan, is_infinity.
  rewrite !eqb_spec, abs_spec.
  change (Prim2SF infinity) with (S754_infinity false).
  destruct (Prim2SF a) as [s|s| |s m e]; try reflexivity.
  - destruct s; reflexivity.
  - unfold SFeqb, SFabs, SFcompare.
    destruct s; rewrite Z.compare_refl, Pos.compare_cont_refl; reflexivity.
Qed.

Lemma add_not_finite_l (a b : float) :
  is_finite a = false -> is_finite (a + b)%float = false.
Proof.
  rewrite !is_finite_SF, add_spec.
  destruct (Prim2SF a) as [s|s| |s m e]; try discriminate; intros _;
    destruct (Prim2SF b) as [s'|s'| |s' m' e']; try reflexivity;
    destruct s, s'; reflexivity.
Qed.

Lemma add_not_finite_r (a b : float) :
  is_finite b = false -> is_finite (a + b)%float = false.
Proof.
  rewrite !is_finite_SF, add_spec.
  destruct (Prim2SF b) as [s|s| |s m e]; try discriminate; intros _;
    destruct (Prim2SF a) as [s'|s'| |s' m' e']; try reflexivity;
    destruct s, s'; reflexivity.
Qed.

Lemma mul_not_finite_l (a b : float) :
  is_finite a = false -> is_finite (a * b)%float = false.
Proof.
  rewrite !is_finite_SF, mul_spec.
  destruct (Prim2SF a) as [s|s| |s m e]; try discriminate; intros _;
    destruct (Prim2SF b) as [s'|s'| |s' m' e']; reflexivity.
Qed.

Lemma mul_not_finite_r (a b : float) :
  is_finite b = false -> is_finite (a * b)%float = false.
Proof.
  rewrite !is_finite_SF, mul_spec.
  destruct (Prim2SF b) as [s|s| |s m e]; try discriminate; intros _;
    destruct (Prim2SF a) as [s'|s'| |s' m' e']; reflexivity.
Qed.

(** The reciprocal of a zero is infinite. *)
Lemma recip_zero_not_finite (d : float) :
  PrimFloat.eqb d 0 = true -> is_finite (1 / d)%float = false.
Proof.
  rewrite is_finite_SF, eqb_spec, div_spec, Prim2SF_one.
  change (Prim2SF 0) with (S754_zero false).
  destruct (Prim2SF d) as [s|s| |s m e]; intros H; try reflexivity;
    try discriminate H; destruct s; discriminate H.
Qed.

#[export] Instance float_NumLaws : NumLaws float.
Proof. split. intros a. apply float_ltb_irrefl. Qed.

(** *** exact arithmetic *)

#[export] Instance xreal_NumLaws : NumLaws xreal.
Proof.
  split. intros [p|]; simpl; [|reflexivity].
  destruct (Rgt_dec p p) as [H|H]; [|reflexivity].
  exfalso. lra.
Qed.

Section Exact.
Local Open Scope js_scope.

(** A product with a reciprocal is the quotient. *)
Lemma xmul_recip (a b : xreal) : a * (one / b) = a / b.
Proof.
  destruct a as [p|], b as [q|]; simpl; try reflexivity.
  destruct (Req_dec_T q 0) as [E|E]; [reflexivity|].
  apply (f_equal (@Some R)). field. exact E.
Qed.

Lemma xrecip_mul (a b : xreal) : (one / b) * a = a / b.
Proof.
  destruct a as [p|], b as [q|]; simpl; try reflexivity.
  - destruct (Req_dec_T q 0) as [E|E]; [reflexivity|].
    apply (f_equal (@Some R)). field. exact E.
  - destruct (Req_dec_T q 0); reflexivity.
Qed.

Lemma xrecip_mul_recip (a b : xreal) :
  (one / b) * a * (one / b) = a / (b * b).
Proof.
  destruct a as [p|], b as [q|]; simpl; try reflexivity.
  - destruct (Req_dec_T q 0) as [E|E];
      destruct (Req_dec_T (q * q) 0) as [E2|E2]; try reflexivity.
    + exfalso. apply E2. rewrite E. ring.
    + exfalso. apply Rmult_integral in E2. tauto.
    + apply (f_equal (@Some R)). field. exact E.
  - destruct (Req_dec_T q 0); reflexivity.
Qed.

End Exact.

(** ** The filter's two branches, in any arithmetic *)

Section Branches.
Context {T : Type} {N : Num T}.
Local Open Scope js_scope.
Import KalmanFilter.

Lemma filter_fresh (k : KalmanFilter.t T) (z u : T) :
  isNaN (x k) = true ->
  filter k z u =
    (mk (R k) (Q k) (A k) (C k) (B k)
        ((one / C k) * Q k * (one / C k)) ((one / C k) * z),
     (one / C k) * z).
Proof. intros H. unfold filter. rewrite H. reflexivity. Qed.

Lemma filter_initialized (k : KalmanFilter.t T) (z u : T) :
  isNaN (x k) = false ->
  let predX := A k * x k + B k * u in
  let predCov := A k * cov k * A k + R k in
  let K := predCov * C k * (one / (C k * predCov * C k + Q k)) in
  filter k z u =
    (mk (R k) (Q k) (A k) (C k) (B k)
        (predCov - K * C k * predCov) (predX + K * (z - C k * predX)),
     predX + K * (z - C k * predX)).
Proof. intros H. unfold filter. rewrite H. reflexivity. Qed.

End Branches.

(** ** Sequences of calls *)

Section Sequences.
Context {T : Type} {N : Num T}.

Lemma filter_seq_app (k : KalmanFilter.t T) (l1 l2 : list (T * T)) :
  KalmanFilter.filter_seq k (l1 ++ l2)
  = KalmanFilter.filter_seq (KalmanFilter.filter_seq k l1) l2.
Proof. apply fold_left_app. Qed.

Lemma filter_n_S (k : KalmanFilter.t T) (z : T) (n : nat) :
  KalmanFilter.filter_n k z (S n)
  = KalmanFilter.filter_n (fst (KalmanFilter.filter1 k z)) z n.
Proof. reflexivity. Qed.

Lemma filter_n_S_last (k : KalmanFilter.t T) (z : T) (n : nat) :
  KalmanFilter.filter_n k z (S n)
  = fst (KalmanFilter.filter1 (KalmanFilter.filter_n k z n) z).
Proof.
  unfold KalmanFilter.filter_n.
  replace (repeat (z, zero) (S n)) with (repeat (z, zero) n ++ [(z, zero)]).
  - rewrite filter_seq_app. reflexivity.
  - symmetry. apply (repeat_cons n (z, zero)).
Qed.

End Sequences.

(** ** C1: the first call *)

(** C1, as amended.  On a filter whose estimate is NaN, [filter(z, u)]
    sets the estimate to the product [(1/C) * z] and the covariance to
    [(1/C) * Q * (1/C)] and returns the estimate, in any arithmetic,
    binary64 included, where each operation rounds (first part).  In
    binary64 with [C = 1] these are the measurement [z] and [Q]
    themselves, bit for bit, whatever numbers they are (second part).
    In exact arithmetic, with [C <> 0], they are the quotients [z / C]
    and [Q / C^2] of the spec (third part). *)
Theorem first_filter_call :
  (forall (T : Type) (N : Num T) (k : KalmanFilter.t T) (z u : T),
      isNaN (KalmanFilter.x k) = true ->
      KalmanFilter.filter k z u =
        (KalmanFilter.mk (KalmanFilter.R k) (KalmanFilter.Q k)
           (KalmanFilter.A k) (KalmanFilter.C k) (KalmanFilter.B k)
           (one / KalmanFilter.C k * KalmanFilter.Q k
            * (one / KalmanFilter.C k))%js
           (one / KalmanFilter.C k * z)%js,
         (one / KalmanFilter.C k * z)%js))
  /\
  (forall (k : KalmanFilter.t float) (z u : float),
      isNaN (KalmanFilter.x k) = true ->
      KalmanFilter.C k = 1%float ->
      KalmanFilter.filter k z u =
        (KalmanFilter.mk (KalmanFilter.R k) (KalmanFilter.Q k)
           (KalmanFilter.A k) 1%float (KalmanFilter.B k)
           (KalmanFilter.Q k) z,
         z))
  /\
  (forall (r q a c b z : R) (u : xreal),
      c <> 0%R ->
      KalmanFilter.filter (fresh_filter r q a c b) (Some z) u
      = ScalarEstimator.first_call (fresh_filter r q a c b) (Some z)
      /\ ScalarEstimator.first_call (fresh_filter r q a c b) (Some z)
         = (real_filter r q a c b (q / (c * c)) (z / c), Some (z / c)%R)).
Proof.
  split; [|split].
  - intros T N k z u H. apply filter_fresh. exact H.
  - intros k z u H HC. rewrite filter_fresh by exact H.
    rewrite HC. change (one / 1%float)%js with 1%float.
    change (1%float * KalmanFilter.Q k * 1%float)%js
      with (1 * KalmanFilter.Q k * 1)%float.
    change (1%float * z)%js with (1 * z)%float.
    rewrite !float_mul_1_l, float_mul_1_r. reflexivity.
  - intros r q a c b z u Hc.
    rewrite filter_fresh by reflexivity.
    rewrite xrecip_mul_recip, xrecip_mul.
    split; [reflexivity|].
    unfold ScalarEstimator.first_call, fresh_filter, real_filter.
    cbn [KalmanFilter.R KalmanFilter.Q KalmanFilter.A KalmanFilter.B
         KalmanFilter.C div mul xreal_Num xdiv xlift2].
    destruct (Req_dec_T c 0) as [E|_]; [contradiction|].
    destruct (Req_dec_T (c * c) 0) as [E|_]; [|reflexivity].
    exfalso. apply Rmult_integral in E. tauto.
Qed.

Lemma first_filter_call_witness :
  KalmanFilter.filter (@KalmanFilter.new float _) 3%float 0%float
  = (default_filter 1%float 3%float, 3%float)
  /\ snd (KalmanFilter.filter (fresh_filter 1 1 1 2 0) (Some 3%R) (Some 0%R))
     = Some (3 / 2)%R.
Proof.
  split.
  - exact (proj1 (proj2 first_filter_call) KalmanFilter.new
             3%float 0%float eq_refl eq_refl).
  - destruct (proj2 (proj2 first_filter_call) 1%R 1%R 1%R 2%R 0%R 3%R
                (Some 0%R)) as [E1 E2].
    + lra.
    + rewrite E1, E2. reflexivity.
Defined.

(** C1 as stated fails in binary64, for a measurement gain other than
    1: the product with the rounded reciprocal is not the quotient.  With
    [C = 49] and [Q = 1] the call [filter(49)] returns
    0.9999999999999999 where [49 / 49] is 1, and sets the covariance to
    0x1.b4b985cf97efbp-12 where [1 / (49 * 49)] is
    0x1.b4b985cf97efdp-12.  With [C = 5e-324], the reciprocal of which
    is infinite, [filter(0)] returns NaN and leaves the filter
    uninitialized, where [0 / C] is 0. *)
Lemma first_call_is_not_the_quotient :
  (let k := new_with float 1%float 1%float 1%float 0%float 49%float in
   snd (KalmanFilter.filter k 49%float 0%float) = 0x1.fffffffffffffp-1%float
   /\ snd (ScalarEstimator.first_call k 49%float) = 1%float
   /\ KalmanFilter.cov (fst (KalmanFilter.filter k 49%float 0%float))
      = 0x1.b4b985cf97efbp-12%float
   /\ KalmanFilter.cov (fst (ScalarEstimator.first_call k 49%float))
      = 0x1.b4b985cf97efdp-12%float)
  /\
  (let k := new_with float 1%float 1%float 1%float 0%float 0x1p-1074%float in
   isNaN (snd (KalmanFilter.filter k 0%float 0%float)) = true
   /\ isNaN (KalmanFilter.x (fst (KalmanFilter.filter k 0%float 0%float)))
      = true
   /\ snd (ScalarEstimator.first_call k 0%float) = 0%float).
Proof. vm_compute. repeat split. Qed.

(** ** C2: the calls after the first *)

(** C2, as amended.  On a filter whose estimate is a number,
    [filter(z, u)] takes [predEstimate = predict(u) = A*estimate + B*u]
    and [predCov = uncertainty() = A*covariance*A + R], computes the gain
    as the product [K = predCov*C * (1 / (C*predCov*C + Q))], sets the
    estimate to [predEstimate + K*(z - C*predEstimate)] and the
    covariance to [predCov - K*C*predCov], and returns the estimate, in
    any arithmetic, binary64 included, where each operation rounds (first
    part).  In binary64 with [A = C = 1], the defaults, the products with
    [A] and [C] are exact, whatever the numbers are: the call computes
    [predEstimate = estimate + B*u], [predCov = covariance + R] and
    [K = predCov * (1 / (predCov + Q))], and sets the estimate to
    [predEstimate + K*(z - predEstimate)] and the covariance to
    [predCov - K*predCov] (second part).  In exact arithmetic, when the
    gain's divisor is not 0, the gain is the quotient
    [predCov*C / (C*predCov*C + Q)] and the call does what the spec's
    five steps say (third part). *)
Theorem filter_update :
  (forall (T : Type) (N : Num T) (k : KalmanFilter.t T) (z u : T),
      isNaN (KalmanFilter.x k) = false ->
      let predEstimate :=
        (KalmanFilter.A k * KalmanFilter.x k + KalmanFilter.B k * u)%js in
      let predCov :=
        (KalmanFilter.A k * KalmanFilter.cov k * KalmanFilter.A k
         + KalmanFilter.R k)%js in
      let K :=
        (predCov * KalmanFilter.C k
         * (one / (KalmanFilter.C k * predCov * KalmanFilter.C k
                   + KalmanFilter.Q k)))%js in
      KalmanFilter.predict k u = predEstimate /\
      KalmanFilter.uncertainty k = predCov /\
      KalmanFilter.filter k z u =
        (KalmanFilter.mk (KalmanFilter.R k) (KalmanFilter.Q k)
           (KalmanFilter.A k) (KalmanFilter.C k) (KalmanFilter.B k)
           (predCov - K * KalmanFilter.C k * predCov)%js
           (predEstimate + K * (z - KalmanFilter.C k * predEstimate))%js,
         (predEstimate + K * (z - KalmanFilter.C k * predEstimate))%js))
  /\
  (forall (k : KalmanFilter.t float) (z u : float),
      isNaN (KalmanFilter.x k) = false ->
      KalmanFilter.A k = 1%float -> KalmanFilter.C k = 1%float ->
      let predEstimate := (KalmanFilter.x k + KalmanFilter.B k * u)%float in
      let predCov := (KalmanFilter.cov k + KalmanFilter.R k)%float in
      let K := (predCov * (1 / (predCov + KalmanFilter.Q k)))%float in
      KalmanFilter.filter k z u =
        (KalmanFilter.mk (KalmanFilter.R k) (KalmanFilter.Q k)
           1%float 1%float (KalmanFilter.B k)
           (predCov - K * predCov)%float
           (predEstimate + K * (z - predEstimate))%float,
         (predEstimate + K * (z - predEstimate))%float))
  /\
  (forall (r q a c b cv x0 z u : R),
      (c * (a * cv * a + r) * c + q)%R <> 0%R ->
      KalmanFilter.filter (real_filter r q a c b cv x0) (Some z) (Some u)
      = ScalarEstimator.update (real_filter r q a c b cv x0)
          (Some z) (Some u)).
Proof.
  split; [|split].
  - intros T N k z u H predEstimate predCov K.
    split; [reflexivity|]. split; [reflexivity|].
    apply filter_initialized. exact H.
  - intros k z u H HA HC predEstimate predCov K.
    rewrite filter_initialized by exact H. cbv zeta.
    rewrite HA, HC. unfold predEstimate, predCov, K.
    change (@mul float float_Num) with PrimFloat.mul.
    change (@add float float_Num) with PrimFloat.add.
    change (@sub float float_Num) with PrimFloat.sub.
    change (@div float float_Num) with PrimFloat.div.
    change (@one float float_Num) with 1%float.
    rewrite !float_mul_1_l, !float_mul_1_r. reflexivity.
  - intros r q a c b cv x0 z u Hd.
    rewrite filter_initialized by reflexivity. cbv zeta.
    rewrite xmul_recip. reflexivity.
Qed.

(** The second call of a default filter: from the estimate 1 and the
    covariance 1, the measurement 0 gives, in binary64, the estimate
    0.33333333333333337 and the covariance 0.6666666666666667. *)
Lemma filter_update_witness :
  KalmanFilter.filter (default_filter 1%float 1%float) 0%float 0%float
  = (default_filter 0x1.5555555555556p-1 0x1.5555555555556p-2,
     0x1.5555555555556p-2%float)
  /\ KalmanFilter.filter (real_filter 1 1 1 1 0 1 1) (Some 0%R) (Some 0%R)
     = ScalarEstimator.update (real_filter 1 1 1 1 0 1 1)
         (Some 0%R) (Some 0%R).
Proof.
  split.
  - rewrite (proj1 (proj2 filter_update) (default_filter 1%float 1%float)
               0%float 0%float eq_refl eq_refl eq_refl).
    vm_compute. reflexivity.
  - apply (proj2 (proj2 filter_update) 1 1 1 1 0 1 1 0 0)%R. lra.
Defined.

(** C2 as stated fails in binary64: the gain the program computes is the
    product with the rounded reciprocal of the divisor, not the quotient.
    A default filter after [filter(1)] and [filter(0)] answers
    [filter(5)] with the estimate 3.25, and sets the covariance to
    0.6250000000000002; the quotient gives the gain 0.625 exactly, the
    estimate 3.2500000000000004 and the covariance 0.625. *)
Lemma update_gain_is_not_the_quotient :
  let k :=
    KalmanFilter.filter_seq (@KalmanFilter.new float _)
      [(1%float, 0%float); (0%float, 0%float)] in
  isNaN (KalmanFilter.x k) = false
  /\ KalmanFilter.filter k 5%float 0%float
     = (default_filter 0x1.4000000000002p-1 0x1.ap+1, 0x1.ap+1%float)
  /\ ScalarEstimator.update k 5%float 0%float
     = (default_filter 0x1.4p-1 0x1.a000000000001p+1,
        0x1.a000000000001p+1%float).
Proof. vm_compute. repeat split. Qed.

(** ** The filter in exact arithmetic *)

Section ExactFilter.
Local Open Scope R_scope.

(** The two branches of [filter], on real numbers. *)
Lemma filter_real (r q a c b cv x0 z u : R) :
  c * (a * cv * a + r) * c + q <> 0 ->
  KalmanFilter.filter (real_filter r q a c b cv x0) (Some z) (Some u)
  = (real_filter r q a c b (next_cov r q a c cv)
       (next_x r q a c b cv x0 z u),
     Some (next_x r q a c b cv x0 z u)).
Proof.
  intros Hd. unfold KalmanFilter.filter, real_filter. cbn.
  destruct (Req_dec_T (c * (a * cv * a + r) * c + q) 0) as [E|E];
    [contradiction|reflexivity].
Qed.

Lemma filter_fresh_real (r q a c b z : R) (u : xreal) :
  c <> 0 ->
  KalmanFilter.filter (fresh_filter r q a c b) (Some z) u
  = (real_filter r q a c b (1 / c * q * (1 / c)) (1 / c * z),
     Some (1 / c * z)).
Proof.
  intros Hc. unfold KalmanFilter.filter, fresh_filter, real_filter. cbn.
  destruct (Req_dec_T c 0) as [E|E]; [contradiction|reflexivity].
Qed.

Section Noise.
Variables r q a c : R.
Hypothesis Hq : 0 < q.
Hypothesis Hr : 0 <= r.

Lemma predCov_nonneg (cv : R) : 0 <= cv -> 0 <= a * cv * a + r.
Proof. intros H. nra. Qed.

Lemma gain_divisor_pos (cv : R) :
  0 <= cv -> 0 < c * (a * cv * a + r) * c + q.
Proof. intros H. pose proof (predCov_nonneg cv H). nra. Qed.

Lemma next_cov_eq (cv : R) :
  0 <= cv ->
  next_cov r q a c cv
  = (a * cv * a + r) * q / (c * (a * cv * a + r) * c + q).
Proof.
  intros H. pose proof (gain_divisor_pos cv H) as Hd.
  unfold next_cov. cbv zeta. field. lra.
Qed.

Lemma next_cov_nonneg (cv : R) : 0 <= cv -> 0 <= next_cov r q a c cv.
Proof.
  intros H. rewrite (next_cov_eq cv H).
  pose proof (gain_divisor_pos cv H) as Hd.
  pose proof (predCov_nonneg cv H) as Hp.
  apply Rmult_le_pos; [nra|].
  left. apply Rinv_0_lt_compat. exact Hd.
Qed.

(** The corrected covariance grows with the covariance before. *)
Lemma next_cov_monotone (cv1 cv2 : R) :
  0 <= cv1 -> cv1 <= cv2 -> next_cov r q a c cv1 <= next_cov r q a c cv2.
Proof.
  intros H1 H12. assert (H2 : 0 <= cv2) by lra.
  rewrite (next_cov_eq cv1 H1), (next_cov_eq cv2 H2).
  pose proof (gain_divisor_pos cv1 H1) as Hd1.
  pose proof (gain_divisor_pos cv2 H2) as Hd2.
  set (p1 := a * cv1 * a + r) in *. set (p2 := a * cv2 * a + r) in *.
  assert (Hp : p1 <= p2) by (unfold p1, p2; nra).
  apply Rminus_le.
  replace (p1 * q / (c * p1 * c + q) - p2 * q / (c * p2 * c + q))
    with (- (q * q * (p2 - p1) / ((c * p1 * c + q) * (c * p2 * c + q))))
    by (field; lra).
  assert (0 <= q * q * (p2 - p1) / ((c * p1 * c + q) * (c * p2 * c + q))).
  { apply Rmult_le_pos; [nra|].
    left. apply Rinv_0_lt_compat. nra. }
  lra.
Qed.

(** The first correction lowers the covariance the first call set. *)
Lemma next_cov_first : c <> 0 ->
  0 <= 1 / c * q * (1 / c)
  /\ next_cov r q a c (1 / c * q * (1 / c)) <= 1 / c * q * (1 / c).
Proof.
  intros Hc.
  assert (Hcc : 0 < c * c) by nra.
  assert (E : 1 / c * q * (1 / c) = q / (c * c)) by (field; exact Hc).
  rewrite E.
  assert (H0 : 0 <= q / (c * c)).
  { apply Rmult_le_pos; [lra|]. left. apply Rinv_0_lt_compat. exact Hcc. }
  split; [exact H0|].
  rewrite (next_cov_eq _ H0).
  pose proof (gain_divisor_pos _ H0) as Hd.
  pose proof (predCov_nonneg _ H0) as Hp.
  set (p := a * (q / (c * c)) * a + r) in *.
  apply Rminus_le.
  replace (p * q / (c * p * c + q) - q / (c * c))
    with (- (q * q / ((c * p * c + q) * (c * c)))) by (field; lra).
  assert (0 <= q * q / ((c * p * c + q) * (c * c))).
  { apply Rmult_le_pos; [nra|].
    left. apply Rinv_0_lt_compat. nra. }
  lra.
Qed.

End Noise.
End ExactFilter.

Section ExactSequences.
Local Open Scope R_scope.
Variables r q a c b : R.
Hypothesis Hq : 0 < q.
Hypothesis Hr : 0 <= r.

Lemma cov_after_nonneg (cv : R) (n : nat) :
  0 <= cv -> 0 <= cov_after r q a c cv n.
Proof.
  intros H. induction n as [|n IH]; [exact H|].
  change (cov_after r q a c cv (S n))
    with (next_cov r q a c (cov_after r q a c cv n)).
  apply next_cov_nonneg; assumption.
Qed.

Lemma cov_after_shift (cv : R) (n : nat) :
  cov_after r q a c (next_cov r q a c cv) n
  = next_cov r q a c (cov_after r q a c cv n).
Proof.
  induction n as [|n IH]; [reflexivity|].
  change (cov_after r q a c (next_cov r q a c cv) (S n))
    with (next_cov r q a c (cov_after r q a c (next_cov r q a c cv) n)).
  rewrite IH. reflexivity.
Qed.

(** A filter that is initialized, with a covariance that is not
    negative, stays so over real measurements and controls. *)
Lemma filter_seq_real (zus : list (R * R)) (cv x0 : R) :
  0 <= cv ->
  exists x' : R,
    KalmanFilter.filter_seq (real_filter r q a c b cv x0) (real_inputs zus)
    = real_filter r q a c b (cov_after r q a c cv (List.length zus)) x'.
Proof.
  revert cv x0. induction zus as [|[z u] zus IH]; intros cv x0 Hcv.
  - exists x0. reflexivity.
  - cbn [real_inputs map KalmanFilter.filter_seq fold_left fst snd].
    rewrite filter_real
      by (apply Rgt_not_eq; apply gain_divisor_pos; assumption).
    cbn [fst].
    destruct (IH (next_cov r q a c cv) (next_x r q a c b cv x0 z u)
                (next_cov_nonneg r q a c Hq Hr cv Hcv)) as [x' Hx'].
    exists x'. unfold real_inputs, KalmanFilter.filter_seq in Hx'.
    rewrite Hx'. cbn [List.length]. f_equal.
    rewrite cov_after_shift. reflexivity.
Qed.

Lemma filter_n_real (m : R) (n : nat) (cv x0 : R) :
  0 <= cv ->
  exists x' : R,
    KalmanFilter.filter_n (real_filter r q a c b cv x0) (Some m) n
    = real_filter r q a c b (cov_after r q a c cv n) x'.
Proof.
  intros Hcv.
  destruct (filter_seq_real (repeat (m, 0) n) cv x0 Hcv) as [x' Hx'].
  exists x'. unfold KalmanFilter.filter_n.
  replace (repeat (Some m, zero) n) with (real_inputs (repeat (m, 0) n)).
  - rewrite Hx', repeat_length. reflexivity.
  - unfold real_inputs. rewrite map_repeat. reflexivity.
Qed.

(** From the covariance the first call sets, the covariance never
    grows. *)
Lemma cov_after_first_nonincreasing (n : nat) :
  c <> 0 ->
  cov_after r q a c (1 / c * q * (1 / c)) (S n)
  <= cov_after r q a c (1 / c * q * (1 / c)) n.
Proof.
  intros Hc. destruct (next_cov_first r q a c Hq Hr Hc) as [H0 H1].
  induction n as [|n IH]; [exact H1|].
  change (cov_after r q a c (1 / c * q * (1 / c)) (S (S n)))
    with (next_cov r q a c (cov_after r q a c (1 / c * q * (1 / c)) (S n))).
  change (cov_after r q a c (1 / c * q * (1 / c)) (S n))
    with (next_cov r q a c (cov_after r q a c (1 / c * q * (1 / c)) n)) at 2.
  apply next_cov_monotone; try assumption.
  apply cov_after_nonneg; assumption.
Qed.

End ExactSequences.

(** ** Repeated calls in exact arithmetic *)

(** In exact arithmetic, with [Q > 0], [R >= 0] and [C <> 0], on a new
    filter fed a constant real measurement, the value of [uncertainty()]
    after a call is at most its value after the call before. *)
Lemma uncertainty_nonincreasing_exact (r q a c b m : R) (n : nat) :
  (0 < q)%R -> (0 <= r)%R -> c <> 0%R ->
  exists u1 u2 : R,
    KalmanFilter.uncertainty
      (KalmanFilter.filter_n (fresh_filter r q a c b) (Some m) (S n))
    = Some u1
    /\ KalmanFilter.uncertainty
         (KalmanFilter.filter_n (fresh_filter r q a c b) (Some m) (S (S n)))
       = Some u2
    /\ (u2 <= u1)%R.
Proof.
  intros Hq Hr Hc.
  destruct (next_cov_first r q a c Hq Hr Hc) as [H0 _].
  pose proof (cov_after_first_nonincreasing r q a c Hq Hr n Hc) as Hmono.
  rewrite !filter_n_S.
  unfold KalmanFilter.filter1.
  rewrite (filter_fresh_real r q a c b m zero Hc).
  cbn [fst].
  destruct (filter_n_real r q a c b Hq Hr m n _ (1 / c * m)%R H0)
    as [x1 E1].
  destruct (filter_n_real r q a c b Hq Hr m (S n) _ (1 / c * m)%R H0)
    as [x2 E2].
  rewrite filter_n_S in E2. unfold KalmanFilter.filter1 in E2.
  rewrite E1, E2.
  eexists. eexists. split; [reflexivity|]. split; [reflexivity|].
  assert (0 <= a * a)%R by nra.
  nra.
Qed.

(** ** A constant measurement in exact arithmetic *)

Section Convergence.
Local Open Scope R_scope.
Variables r q m : R.
Hypothesis Hq : 0 < q.
Hypothesis Hr : 0 <= r.

(** With [A = C = 1] and [B = 0], a call shrinks the error by
    [Q / (predCov + Q)]. *)
Lemma next_x_error (cv x0 : R) :
  0 <= cv ->
  next_x r q 1 1 0 cv x0 m 0 - m = (x0 - m) * (q / (cv + r + q)).
Proof.
  intros Hcv. unfold next_x. cbv zeta. field. lra.
Qed.

Lemma next_cov_unit (cv : R) :
  0 <= cv -> next_cov r q 1 1 cv = (cv + r) * q / (cv + r + q).
Proof.
  intros Hcv. unfold next_cov. cbv zeta. field. lra.
Qed.

(** After [n] calls the error, weighted by [Q + n * cov], is at most the
    error before, weighted by [Q]. *)
Lemma error_bound (n : nat) (cv x0 : R) :
  0 < cv ->
  exists cv' e : R,
    KalmanFilter.filter_n (real_filter r q 1 1 0 cv x0) (Some m) n
    = real_filter r q 1 1 0 cv' e
    /\ 0 < cv'
    /\ Rabs (e - m) * (q + INR n * cv) <= Rabs (x0 - m) * q.
Proof.
  revert cv x0. induction n as [|n IH]; intros cv x0 Hcv.
  - exists cv, x0. split; [reflexivity|]. split; [exact Hcv|].
    cbn [INR]. right. ring.
  - rewrite filter_n_S. unfold KalmanFilter.filter1.
    change (@zero xreal _) with (Some 0).
    rewrite filter_real by (apply Rgt_not_eq; nra).
    cbn [fst].
    assert (Hcv0 : 0 <= cv) by lra.
    set (s := cv + r + q).
    assert (Hs : 0 < s) by (unfold s; lra).
    assert (Hc1 : next_cov r q 1 1 cv = (cv + r) * q / s)
      by (apply next_cov_unit; exact Hcv0).
    assert (Hc1pos : 0 < next_cov r q 1 1 cv).
    { rewrite Hc1. apply Rmult_lt_0_compat; [nra|].
      apply Rinv_0_lt_compat. exact Hs. }
    destruct (IH (next_cov r q 1 1 cv) (next_x r q 1 1 0 cv x0 m 0) Hc1pos)
      as (cv' & e & E & Hcv' & Hb).
    exists cv', e. split; [exact E|]. split; [exact Hcv'|].
    rewrite (next_x_error cv x0 Hcv0) in Hb. fold s in Hb.
    rewrite Rabs_mult in Hb.
    assert (Hqs : 0 < q / s).
    { apply Rmult_lt_0_compat; [exact Hq|].
      apply Rinv_0_lt_compat. exact Hs. }
    rewrite (Rabs_pos_eq (q / s)) in Hb by lra.
    rewrite Hc1 in Hb. rewrite S_INR.
    pose proof (Rabs_pos (e - m)) as HE.
    pose proof (Rabs_pos (x0 - m)) as HD.
    pose proof (pos_INR n) as Hn.
    set (E0 := Rabs (e - m)) in *. set (D0 := Rabs (x0 - m)) in *.
    (* the induction hypothesis, cleared of its divisions *)
    assert (H1 : E0 * (s + INR n * (cv + r)) <= D0 * q).
    { apply (Rmult_le_reg_l (q / s)); [exact Hqs|].
      replace (q / s * (E0 * (s + INR n * (cv + r))))
        with (E0 * (q + INR n * ((cv + r) * q / s))) by (field; lra).
      replace (q / s * (D0 * q)) with (D0 * (q / s) * q) by (field; lra).
      exact Hb. }
    apply Rle_trans with (E0 * (s + INR n * (cv + r))); [|exact H1].
    apply Rmult_le_compat_l; [exact HE|].
    unfold s. nra.
Qed.

End Convergence.

(** In exact arithmetic, with [Q > 0], [R >= 0], [A = C = 1] and
    [B = 0], on a filter that is new, or initialized with a positive
    covariance (as every filter is after a call), the estimate after [n]
    calls with the constant real measurement [m] tends to [m]. *)
Lemma constant_measurement_converges_exact
  (r q m : R) (k : KalmanFilter.t xreal) :
  (0 < q)%R -> (0 <= r)%R ->
  KalmanFilter.R k = Some r -> KalmanFilter.Q k = Some q ->
  KalmanFilter.A k = one -> KalmanFilter.C k = one ->
  KalmanFilter.B k = zero ->
  (isNaN (KalmanFilter.x k) = true
   \/ exists cv x0 : R,
       KalmanFilter.cov k = Some cv /\ KalmanFilter.x k = Some x0
       /\ (0 < cv)%R) ->
  forall eps : R, (0 < eps)%R ->
  exists n0 : nat, forall n : nat, (n0 <= n)%nat ->
  exists e : R,
    KalmanFilter.x (KalmanFilter.filter_n k (Some m) n) = Some e
    /\ (Rabs (e - m) < eps)%R.
Proof.
  intros Hq Hr ER EQ EA EC EB Hstate eps Heps.
  destruct k as [kR kQ kA kC kB kcov kx]. cbn in ER, EQ, EA, EC, EB, Hstate.
  subst kR kQ kA kC kB.
  destruct Hstate as [Hnan | (cv & x0 & Ecov & Ex & Hcv)].
  - (* a new filter: the first call sets the estimate to [m] *)
    exists 1%nat. intros n Hn. destruct n as [|n]; [lia|].
    rewrite filter_n_S. unfold KalmanFilter.filter1.
    rewrite filter_fresh by exact Hnan.
    cbn [fst KalmanFilter.R KalmanFilter.Q KalmanFilter.A KalmanFilter.B
         KalmanFilter.C].
    assert (E1 : @mul xreal _ (@mul xreal _ (@div xreal _ one (Some 1%R))
                                   (Some q))
                   (@div xreal _ one (Some 1%R)) = Some q).
    { cbn. destruct (Req_dec_T 1 0) as [E|E]; [exfalso; lra|].
      apply (f_equal (@Some R)). field. }
    assert (E2 : @mul xreal _ (@div xreal _ one (Some 1%R)) (Some m) = Some m).
    { cbn. destruct (Req_dec_T 1 0) as [E|E]; [exfalso; lra|].
      apply (f_equal (@Some R)). field. }
    rewrite E1, E2.
    destruct (error_bound r q m Hq Hr n q m Hq) as (cv' & e & E & _ & Hb).
    match goal with
    | |- context [KalmanFilter.filter_n ?k0 _ _] =>
        change k0 with (real_filter r q 1 1 0 q m)
    end.
    rewrite E. exists e. split; [reflexivity|].
    replace (m - m)%R with 0%R in Hb by ring.
    rewrite Rabs_R0, Rmult_0_l in Hb.
    pose proof (Rabs_pos (e - m)) as HE. pose proof (pos_INR n) as Hn'.
    assert (0 < q + INR n * q)%R by nra.
    nra.
  - (* an initialized filter: the weighted error bound *)
    subst kcov kx.
    set (D0 := Rabs (x0 - m)).
    assert (HD : (0 <= D0)%R) by apply Rabs_pos.
    assert (Hpos : (0 < cv * eps / (D0 * q + 1))%R).
    { apply Rmult_lt_0_compat; [nra|]. apply Rinv_0_lt_compat. nra. }
    destruct (archimed_cor1 _ Hpos) as (n0 & Hn0 & Hn0pos).
    exists n0. intros n Hn.
    destruct (error_bound r q m Hq Hr n cv x0 Hcv) as (cv' & e & E & _ & Hb).
    match goal with
    | |- context [KalmanFilter.filter_n ?k0 _ _] =>
        change k0 with (real_filter r q 1 1 0 cv x0)
    end.
    rewrite E. exists e. split; [reflexivity|].
    fold D0 in Hb.
    pose proof (Rabs_pos (e - m)) as HE.
    assert (HN0 : (0 < INR n0)%R) by (apply lt_0_INR; exact Hn0pos).
    assert (HNn : (INR n0 <= INR n)%R) by (apply le_INR; exact Hn).
    (* [D0 * q + 1 < n0 * cv * eps] *)
    assert (Hbig : (D0 * q + 1 < INR n0 * (cv * eps))%R).
    { apply (Rmult_lt_reg_l (/ INR n0)); [apply Rinv_0_lt_compat; exact HN0|].
      replace (/ INR n0 * (INR n0 * (cv * eps)))%R with (cv * eps)%R
        by (field; lra).
      apply (Rmult_lt_reg_r (/ (D0 * q + 1)));
        [apply Rinv_0_lt_compat; nra|].
      replace (/ INR n0 * (D0 * q + 1) * / (D0 * q + 1))%R with (/ INR n0)%R
        by (field; split; nra).
      exact Hn0. }
    assert (Hden : (0 < q + INR n * cv)%R) by nra.
    apply (Rmult_lt_reg_r (q + INR n * cv)); [exact Hden|].
    apply Rle_lt_trans with (D0 * q)%R; [exact Hb|].
    assert (INR n0 * (cv * eps) <= INR n * (cv * eps))%R.
    { apply Rmult_le_compat_r; [nra|exact HNn]. }
    nra.
Qed.

(** ** The default filter in binary64 *)

Lemma matches_step (m x K : float) :
  SFfinite (Prim2SF m) = true ->
  positive_finite (Prim2SF K) = true ->
  matches m x ->
  matches m ((1 * x + 0 * 0) + K * (m - 1 * (1 * x + 0 * 0)))%float.
Proof.
  intros Hm HK Hx.
  rewrite !float_mul_1_l. change (0 * 0)%float with 0%float.
  destruct (Prim2SF K) as [| | |sK mK eK] eqn:EK; try discriminate.
  destruct sK; [discriminate|].
  assert (E0 : Prim2SF 0%float = S754_zero false) by reflexivity.
  destruct Hx as [-> | [Em ->]].
  - destruct (Prim2SF m) as [s| | |s mm e] eqn:Em; try discriminate.
    + assert (Ex : Prim2SF ((m + 0) + K * (m - (m + 0)))%float
                   = S754_zero false).
      { rewrite !add_spec, mul_spec, sub_spec, add_spec, Em, EK, E0.
        destruct s; reflexivity. }
      destruct s.
      * right. split; [exact Em|]. apply Prim2SF_inj. rewrite Ex. reflexivity.
      * left. apply Prim2SF_inj. rewrite Ex, Em. reflexivity.
    + left. apply Prim2SF_inj.
      rewrite !add_spec, mul_spec, sub_spec, add_spec, Em, EK, E0.
      cbn [SF64add SFadd]. rewrite SFsub_self. reflexivity.
  - right. split; [exact Em|]. apply Prim2SF_inj.
    rewrite !add_spec, mul_spec, sub_spec, add_spec, Em, EK, E0. reflexivity.
Qed.

Lemma default_filter_step (cv x z : float) :
  is_nan x = false ->
  KalmanFilter.filter (default_filter cv x) z 0%float
  = (default_filter (next_cov64 cv)
       ((1 * x + 0 * 0) + gain64 cv * (z - 1 * (1 * x + 0 * 0)))%float,
     ((1 * x + 0 * 0) + gain64 cv * (z - 1 * (1 * x + 0 * 0)))%float).
Proof.
  intros H. rewrite filter_initialized by exact H.
  reflexivity.
Qed.

Lemma cov64_after_S (n : nat) :
  cov64_after (S n) = next_cov64 (cov64_after n).
Proof. reflexivity. Qed.

Lemma cov64_period (n : nat) :
  18 <= n -> cov64_after (n + 2) = cov64_after n.
Proof.
  intros H. replace n with (18 + (n - 18)) by lia.
  generalize (n - 18). clear n H. intros k.
  induction k as [|k IH].
  - vm_compute. reflexivity.
  - replace (18 + S k + 2) with (S (18 + k + 2)) by lia.
    replace (18 + S k) with (S (18 + k)) by lia.
    rewrite !cov64_after_S, IH. reflexivity.
Qed.

Lemma gain64_good_first :
  forallb (fun n => positive_finite (Prim2SF (gain64 (cov64_after n))))
    (seq 0 20) = true.
Proof. vm_compute. reflexivity. Qed.

Lemma gain64_good (n : nat) :
  positive_finite (Prim2SF (gain64 (cov64_after n))) = true.
Proof.
  induction n as [n IH] using lt_wf_ind.
  destruct (Nat.lt_ge_cases n 20) as [Hlt|Hge].
  - pose proof gain64_good_first as H.
    rewrite forallb_forall in H. apply H. apply in_seq. lia.
  - replace n with (n - 2 + 2) by lia.
    rewrite cov64_period by lia. apply IH. lia.
Qed.

Lemma matches_not_nan (m x : float) :
  SFfinite (Prim2SF m) = true -> matches m x -> is_nan x = false.
Proof.
  intros Hm [-> | [_ ->]]; [apply is_nan_spec; exact Hm|reflexivity].
Qed.

Lemma matches_eqb (m x : float) :
  SFfinite (Prim2SF m) = true -> matches m x -> PrimFloat.eqb x m = true.
Proof.
  intros Hm [-> | [Em ->]].
  - pose proof (is_nan_spec m Hm) as H. unfold is_nan in H.
    destruct (PrimFloat.eqb m m); [reflexivity|discriminate].
  - rewrite eqb_spec, Em. reflexivity.
Qed.

Lemma matches_sub (m x : float) :
  SFfinite (Prim2SF m) = true -> matches m x -> (x - m)%float = 0%float.
Proof.
  intros Hm Hx. apply Prim2SF_inj. rewrite sub_spec.
  destruct Hx as [-> | [Em ->]].
  - destruct (Prim2SF m) as [s| | |s mm e]; try discriminate.
    + destruct s; reflexivity.
    + apply SFsub_self.
  - rewrite Em. reflexivity.
Qed.

Lemma default_run (m : float) (n : nat) :
  SFfinite (Prim2SF m) = true ->
  exists x : float,
    KalmanFilter.filter_n (@KalmanFilter.new float _) m (S n)
    = default_filter (cov64_after n) x
    /\ matches m x.
Proof.
  intros Hm. induction n as [|n IH].
  - exists m. split; [|left; reflexivity].
    rewrite filter_n_S. unfold KalmanFilter.filter1.
    rewrite filter_fresh by reflexivity.
    cbn [fst KalmanFilter.filter_n KalmanFilter.filter_seq repeat fold_left].
    change (@KalmanFilter.C float KalmanFilter.new) with 1%float.
    change (@KalmanFilter.Q float KalmanFilter.new) with 1%float.
    change (one / 1%float)%js with 1%float.
    change (1%float * 1%float * 1%float)%js with 1%float.
    change (1%float * m)%js with (1 * m)%float.
    rewrite float_mul_1_l. reflexivity.
  - destruct IH as (x & E & Hx).
    rewrite filter_n_S_last, E. unfold KalmanFilter.filter1.
    change (@zero float _) with 0%float.
    rewrite default_filter_step by (apply (matches_not_nan m); assumption).
    cbn [fst]. eexists. split; [reflexivity|].
    apply matches_step; [exact Hm|apply gain64_good|exact Hx].
Qed.

Lemma uncertainty64_period (n : nat) :
  18 <= n -> uncertainty64_after (n + 2) = uncertainty64_after n.
Proof.
  intros H. unfold uncertainty64_after. rewrite cov64_period by exact H.
  reflexivity.
Qed.

Lemma uncertainty64_first :
  forallb (fun n => PrimFloat.leb (uncertainty64_after (S n))
                      (uncertainty64_after n)) (seq 0 19) = true.
Proof. vm_compute. reflexivity. Qed.

Lemma uncertainty64_alternates (k : nat) :
  uncertainty64_after (19 + 2 * k) = 0x1.9e3779b97f4a7p+0%float
  /\ uncertainty64_after (20 + 2 * k) = 0x1.9e3779b97f4a8p+0%float.
Proof.
  induction k as [|k [IH1 IH2]].
  - split; vm_compute; reflexivity.
  - replace (19 + 2 * S k) with (19 + 2 * k + 2) by lia.
    replace (20 + 2 * S k) with (20 + 2 * k + 2) by lia.
    rewrite !uncertainty64_period by lia. split; assumption.
Qed.

(** In binary64, with the default parameters, after every call with a
    constant finite measurement [m] the estimate equals [m]. *)
Lemma binary64_default_estimate (m : float) (n : nat) :
  is_finite m = true ->
  let x := KalmanFilter.x
             (KalmanFilter.filter_n (@KalmanFilter.new float _) m (S n)) in
  isNaN x = false
  /\ PrimFloat.eqb x m = true
  /\ (x - m)%float = 0%float
  /\ (x = m \/ (m = (-0)%float /\ x = 0%float)).
Proof.
  intros Hm x. apply is_finite_spec in Hm.
  destruct (default_run m n Hm) as (x' & E & Hx).
  unfold x. rewrite E. cbn [KalmanFilter.x default_filter].
  split; [apply (matches_not_nan m); assumption|].
  split; [apply matches_eqb; assumption|].
  split; [apply matches_sub; assumption|].
  destruct Hx as [->|[Em ->]]; [left; reflexivity|right].
  split; [|reflexivity]. apply Prim2SF_inj. rewrite Em. reflexivity.
Qed.

(** In binary64, with the default parameters and a constant finite
    measurement, the value of [uncertainty()] does not grow over the
    first 20 calls; from the 20th call on it alternates between two
    neighbouring numbers. *)
Lemma binary64_default_uncertainty (m : float) :
  is_finite m = true ->
  let U := fun calls =>
    KalmanFilter.uncertainty
      (KalmanFilter.filter_n (@KalmanFilter.new float _) m calls) in
  (forall n, 1 <= n < 20 -> PrimFloat.leb (U (S n)) (U n) = true)
  /\ (forall k, U (20 + 2 * k) = 0x1.9e3779b97f4a7p+0%float
                /\ U (21 + 2 * k) = 0x1.9e3779b97f4a8p+0%float)
  /\ PrimFloat.ltb 0x1.9e3779b97f4a7p+0 0x1.9e3779b97f4a8p+0 = true.
Proof.
  intros Hm U. apply is_finite_spec in Hm.
  assert (HU : forall n, U (S n) = uncertainty64_after n).
  { intros n. unfold U. destruct (default_run m n Hm) as (x & E & _).
    rewrite E. reflexivity. }
  split; [|split; [|reflexivity]].
  - intros n Hn. destruct n as [|n]; [lia|]. rewrite !HU.
    pose proof uncertainty64_first as H. rewrite forallb_forall in H.
    apply H. apply in_seq. lia.
  - intros k. change (20 + 2 * k) with (S (19 + 2 * k)).
    change (21 + 2 * k) with (S (20 + 2 * k)). rewrite !HU.
    apply uncertainty64_alternates.
Qed.

(** ** Unit gains in binary64 *)

(** One correction of a filter with [A = C = 1] and [B = 0] whose
    estimate matches the finite measurement: whatever the gain is, the
    new estimate matches the measurement again, or is NaN (when the gain
    is infinite or NaN). *)
Lemma matches_or_nan_step (m x K : float) :
  SFfinite (Prim2SF m) = true ->
  matches m x ->
  let x' := ((1 * x + 0 * 0) + K * (m - 1 * (1 * x + 0 * 0)))%float in
  matches m x' \/ x' = nan.
Proof.
  intros Hm Hx x'. unfold x'. clear x'.
  rewrite !float_mul_1_l. change (0 * 0)%float with 0%float.
  assert (E0 : Prim2SF 0%float = S754_zero false) by reflexivity.
  destruct (Prim2SF K) as [sK|sK| |sK mK eK] eqn:EK.
  - (* the gain a zero *)
    left. destruct Hx as [-> | [Em ->]].
    + destruct (Prim2SF m) as [s| | |s mm e] eqn:Em; try discriminate.
      * assert (Ex : Prim2SF ((m + 0) + K * (m - (m + 0)))%float
                     = S754_zero false).
        { rewrite !add_spec, mul_spec, sub_spec, add_spec, Em, EK, E0.
          destruct s, sK; reflexivity. }
        destruct s.
        -- right. split; [exact Em|]. apply Prim2SF_inj. rewrite Ex.
           reflexivity.
        -- left. apply Prim2SF_inj. rewrite Ex, Em. reflexivity.
      * left. apply Prim2SF_inj.
        rewrite !add_spec, mul_spec, sub_spec, add_spec, Em, EK, E0.
        cbn [SF64add SFadd]. rewrite SFsub_self.
        destruct sK; reflexivity.
    + right. split; [exact Em|]. apply Prim2SF_inj.
      rewrite !add_spec, mul_spec, sub_spec, add_spec, Em, EK, E0.
      destruct sK; reflexivity.
  - (* the gain infinite *)
    right. apply Prim2SF_inj.
    destruct Hx as [-> | [Em ->]].
    + destruct (Prim2SF m) as [s| | |s mm e] eqn:Em; try discriminate.
      * rewrite !add_spec, mul_spec, sub_spec, add_spec, Em, EK, E0.
        destruct s, sK; reflexivity.
      * rewrite !add_spec, mul_spec, sub_spec, add_spec, Em, EK, E0.
        cbn [SF64add SFadd]. rewrite SFsub_self.
        destruct sK; reflexivity.
    + rewrite !add_spec, mul_spec, sub_spec, add_spec, Em, EK, E0.
      destruct sK; reflexivity.
  - (* the gain NaN *)
    right. assert (EN : K = nan) by (apply Prim2SF_inj; exact EK).
    rewrite EN, float_mul_nan_l. apply float_add_nan_r.
  - (* the gain finite *)
    left. destruct Hx as [-> | [Em ->]].
    + destruct (Prim2SF m) as [s| | |s mm e] eqn:Em; try discriminate.
      * assert (Ex : Prim2SF ((m + 0) + K * (m - (m + 0)))%float
                     = S754_zero false).
        { rewrite !add_spec, mul_spec, sub_spec, add_spec, Em, EK, E0.
          destruct s, sK; reflexivity. }
        destruct s.
        -- right. split; [exact Em|]. apply Prim2SF_inj. rewrite Ex.
           reflexivity.
        -- left. apply Prim2SF_inj. rewrite Ex, Em. reflexivity.
      * left. apply Prim2SF_inj.
        rewrite !add_spec, mul_spec, sub_spec, add_spec, Em, EK, E0.
        cbn [SF64add SFadd]. rewrite SFsub_self.
        destruct sK; reflexivity.
    + right. split; [exact Em|]. apply Prim2SF_inj.
      rewrite !add_spec, mul_spec, sub_spec, add_spec, Em, EK, E0.
      destruct sK; reflexivity.
Qed.

(** A call with the finite measurement [m] on a filter with
    [A = C = 1] and [B = 0] whose estimate matches [m] or is NaN: the
    estimate matches [m] or is NaN again, and after NaN it is [m]. *)
Lemma unit_step (r q cv x m : float) :
  SFfinite (Prim2SF m) = true ->
  matches m x \/ x = nan ->
  exists cv' x' : float,
    KalmanFilter.filter1 (KalmanFilter.mk r q 1%float 1%float 0%float cv x) m
    = (KalmanFilter.mk r q 1%float 1%float 0%float cv' x', x')
    /\ (matches m x' \/ x' = nan)
    /\ (x = nan -> x' = m).
Proof.
  intros Hm [Hx | ->].
  - pose proof (matches_not_nan m x Hm Hx) as Hn.
    unfold KalmanFilter.filter1. rewrite filter_initialized by exact Hn.
    cbv zeta.
    cbn [KalmanFilter.R KalmanFilter.Q KalmanFilter.A KalmanFilter.B
         KalmanFilter.C KalmanFilter.cov KalmanFilter.x].
    eexists. eexists. split; [reflexivity|]. split.
    + apply (matches_or_nan_step m x _ Hm Hx).
    + intros E. rewrite E in Hn. discriminate.
  - unfold KalmanFilter.filter1. rewrite filter_fresh by reflexivity.
    cbn [KalmanFilter.R KalmanFilter.Q KalmanFilter.A KalmanFilter.B
         KalmanFilter.C KalmanFilter.cov KalmanFilter.x].
    change (one / 1%float)%js with 1%float.
    change (1%float * m)%js with (1 * m)%float.
    rewrite !float_mul_1_l.
    eexists. eexists. split; [reflexivity|]. split.
    + left. left. reflexivity.
    + reflexivity.
Qed.

Lemma unit_run (r q m : float) (n : nat) :
  SFfinite (Prim2SF m) = true ->
  exists cv x : float,
    KalmanFilter.filter_n
      (new_with float r q 1%float 0%float 1%float) m (S n)
    = KalmanFilter.mk r q 1%float 1%float 0%float cv x
    /\ (matches m x \/ x = nan).
Proof.
  intros Hm. induction n as [|n IH].
  - rewrite filter_n_S.
    destruct (unit_step r q nan nan m Hm (or_intror eq_refl))
      as (cv' & x' & E & Hx & _).
    change (new_with float r q 1%float 0%float 1%float)
      with (KalmanFilter.mk r q 1%float 1%float 0%float nan nan).
    rewrite E. exists cv', x'. split; [reflexivity|exact Hx].
  - destruct IH as (cv & x & E & Hx).
    rewrite filter_n_S_last, E.
    destruct (unit_step r q cv x m Hm Hx) as (cv' & x' & E' & Hx' & _).
    rewrite E'. exists cv', x'. split; [reflexivity|exact Hx'].
Qed.

(** In binary64, a new filter with [A = C = 1] and [B = 0], whatever its
    noise parameters, answers a constant finite measurement [m] with [m]
    or with NaN, and after NaN with [m]. *)
Lemma binary64_unit_estimate (r q m : float) (n : nat) :
  is_finite m = true ->
  let X := fun calls =>
    KalmanFilter.x
      (KalmanFilter.filter_n
         (new_with float r q 1%float 0%float 1%float) m calls) in
  X 1 = m
  /\ (PrimFloat.eqb (X (S n)) m = true \/ isNaN (X (S n)) = true)
  /\ (isNaN (X (S n)) = true -> X (S (S n)) = m).
Proof.
  intros Hm X. apply is_finite_spec in Hm. subst X. cbv beta.
  split; [|split].
  - rewrite filter_n_S.
    destruct (unit_step r q nan nan m Hm (or_intror eq_refl))
      as (cv' & x' & E & _ & Hx).
    change (new_with float r q 1%float 0%float 1%float)
      with (KalmanFilter.mk r q 1%float 1%float 0%float nan nan).
    rewrite E. cbn. apply Hx. reflexivity.
  - destruct (unit_run r q m n Hm) as (cv & x & E & [Hx | ->]);
      rewrite E; cbn [KalmanFilter.x].
    + left. apply matches_eqb; assumption.
    + right. reflexivity.
  - destruct (unit_run r q m n Hm) as (cv & x & E & Hx).
    intros Hn. rewrite E in Hn. cbn [KalmanFilter.x] in Hn.
    apply is_nan_eq in Hn.
    rewrite filter_n_S_last, E.
    destruct (unit_step r q cv x m Hm Hx) as (cv' & x' & E' & _ & Hx').
    rewrite E'. cbn. apply Hx'. exact Hn.
Qed.

(** *** States that come back *)

Section Cycles.
Context {T : Type} {N : Num T}.

Lemma filter_n_add (k : KalmanFilter.t T) (z : T) (a b : nat) :
  KalmanFilter.filter_n k z (a + b)
  = KalmanFilter.filter_n (KalmanFilter.filter_n k z a) z b.
Proof.
  unfold KalmanFilter.filter_n. rewrite repeat_app. apply filter_seq_app.
Qed.

(** Once the calls with a constant measurement bring a state back, they
    go round for ever. *)
Lemma filter_n_cycle (k : KalmanFilter.t T) (z : T) (a p : nat) :
  KalmanFilter.filter_n (KalmanFilter.filter_n k z a) z p
  = KalmanFilter.filter_n k z a ->
  forall n : nat,
    KalmanFilter.filter_n k z (a + n * p) = KalmanFilter.filter_n k z a.
Proof.
  intros Hp n. induction n as [|n IH].
  - rewrite Nat.mul_0_l, Nat.add_0_r. reflexivity.
  - replace (a + S n * p) with (a + n * p + p) by lia.
    rewrite filter_n_add, IH. exact Hp.
Qed.

End Cycles.

(** ** C3: the uncertainty over repeated calls *)

(** C3, as amended.  In exact arithmetic, with [Q > 0], [R >= 0] and
    [C <> 0], on a new filter fed a constant real measurement, the value
    of [uncertainty()] after a call is at most its value after the call
    before (first part).  In binary64, with the default parameters and a
    constant finite measurement, that holds up to the 20th call; from
    then on the value alternates between 1.6180339887498947, after the
    calls 20, 22, 24, ..., and the next number above it,
    1.618033988749895, after the calls 21, 23, 25, ... (second part). *)
Theorem uncertainty_over_repeated_calls :
  (forall (r q a c b m : R) (n : nat),
      (0 < q)%R -> (0 <= r)%R -> c <> 0%R ->
      exists u1 u2 : R,
        KalmanFilter.uncertainty
          (KalmanFilter.filter_n (fresh_filter r q a c b) (Some m) (S n))
        = Some u1
        /\ KalmanFilter.uncertainty
             (KalmanFilter.filter_n (fresh_filter r q a c b) (Some m)
                (S (S n)))
           = Some u2
        /\ (u2 <= u1)%R)
  /\
  (forall m : float,
      is_finite m = true ->
      let U := fun calls =>
        KalmanFilter.uncertainty
          (KalmanFilter.filter_n (@KalmanFilter.new float _) m calls) in
      (forall n, 1 <= n < 20 -> PrimFloat.leb (U (S n)) (U n) = true)
      /\ (forall k, U (20 + 2 * k) = 0x1.9e3779b97f4a7p+0%float
                    /\ U (21 + 2 * k) = 0x1.9e3779b97f4a8p+0%float)
      /\ PrimFloat.ltb 0x1.9e3779b97f4a7p+0 0x1.9e3779b97f4a8p+0 = true).
Proof.
  split.
  - exact uncertainty_nonincreasing_exact.
  - exact binary64_default_uncertainty.
Qed.

Lemma uncertainty_over_repeated_calls_witness :
  (exists u1 u2 : R,
      KalmanFilter.uncertainty
        (KalmanFilter.filter_n (fresh_filter 1 1 1 1 0) (Some 1%R) 1)
      = Some u1
      /\ KalmanFilter.uncertainty
           (KalmanFilter.filter_n (fresh_filter 1 1 1 1 0) (Some 1%R) 2)
         = Some u2
      /\ (u2 <= u1)%R)
  /\ PrimFloat.leb
       (KalmanFilter.uncertainty
          (KalmanFilter.filter_n (@KalmanFilter.new float _) 1%float 2))
       (KalmanFilter.uncertainty
          (KalmanFilter.filter_n (@KalmanFilter.new float _) 1%float 1))
     = true.
Proof.
  split.
  - apply (proj1 uncertainty_over_repeated_calls 1%R 1%R 1%R 1%R 0%R 1%R 0%nat
             Rlt_0_1).
    + exact Rle_0_1.
    + exact R1_neq_R0.
  - apply (proj1 (proj2 uncertainty_over_repeated_calls 1%float eq_refl) 1).
    lia.
Defined.

(** C3 as stated fails.  In binary64, with the default parameters and the
    constant measurement 1, the uncertainty after the 21st call
    (1.618033988749895) is one unit in the last place above its value
    after the 20th (1.6180339887498947).  In exact arithmetic, with
    [Q = -1], it rises from 0 after the first call to 1 after the second.
    And with [C = 0] (binary64, measurement 1) it is infinite after the
    first call and NaN after the second. *)
Lemma uncertainty_increases :
  (let k := @KalmanFilter.new float _ in
   let u20 := KalmanFilter.uncertainty (KalmanFilter.filter_n k 1%float 20) in
   let u21 := KalmanFilter.uncertainty (KalmanFilter.filter_n k 1%float 21) in
   u20 = 0x1.9e3779b97f4a7p+0%float
   /\ u21 = 0x1.9e3779b97f4a8p+0%float
   /\ PrimFloat.leb u21 u20 = false)
  /\
  (let k := fresh_filter 1 (-1) 1 1 0 in
   KalmanFilter.uncertainty (KalmanFilter.filter_n k (Some 0%R) 1)
   = Some 0%R
   /\ KalmanFilter.uncertainty (KalmanFilter.filter_n k (Some 0%R) 2)
      = Some 1%R)
  /\
  (let k := KalmanFilter.mk 1%float 1%float 1%float 0%float 0%float
              nan nan in
   let u1 := KalmanFilter.uncertainty (KalmanFilter.filter_n k 1%float 1) in
   let u2 := KalmanFilter.uncertainty (KalmanFilter.filter_n k 1%float 2) in
   u1 = infinity /\ isNaN u2 = true /\ PrimFloat.leb u2 u1 = false).
Proof.
  split; [vm_compute; repeat split|].
  split; [|vm_compute; repeat split].
  cbv zeta. rewrite filter_n_S, (filter_n_S _ _ 1), filter_n_S.
  unfold KalmanFilter.filter1.
  rewrite (filter_fresh_real 1 (-1) 1 1 0 0 zero) by lra.
  cbn [fst]. change zero with (Some 0%R).
  rewrite filter_real
    by (replace (1 / 1 * -1 * (1 / 1))%R with (-1)%R by field; lra).
  cbn [fst KalmanFilter.filter_n KalmanFilter.filter_seq repeat fold_left].
  unfold KalmanFilter.uncertainty, real_filter, next_cov.
  cbn [KalmanFilter.A KalmanFilter.cov KalmanFilter.R mul add xreal_Num
       xlift2].
  split; apply (f_equal (@Some R)); field.
Qed.

(** ** C4: a constant measurement *)

(** C4, as amended.  In binary64, a new filter with [A = C = 1] and
    [B = 0], whatever its noise parameters [R] and [Q], answers the
    constant finite measurement [m] with [m] at the first call, and at
    every later call with a number equal to [m] or with NaN; the call
    after NaN returns [m] (first part).  With the default parameters no
    call returns NaN: the estimate equals [m] after every call, so the
    error is 0 from the first call on (second part).  In exact
    arithmetic, with [Q > 0], [R >= 0], [A = C = 1] and [B = 0], on a
    filter that is new, or initialized with a positive covariance, the
    estimate after [n] calls with the constant real measurement [m]
    tends to [m]: for every [eps > 0] the error is below [eps] from some
    call on (third part). *)
Theorem constant_measurement_converges :
  (forall (r q m : float) (n : nat),
      is_finite m = true ->
      let X := fun calls =>
        KalmanFilter.x
          (KalmanFilter.filter_n
             (new_with float r q 1%float 0%float 1%float) m calls) in
      X 1 = m
      /\ (PrimFloat.eqb (X (S n)) m = true \/ isNaN (X (S n)) = true)
      /\ (isNaN (X (S n)) = true -> X (S (S n)) = m))
  /\
  (forall (m : float) (n : nat),
      is_finite m = true ->
      let x := KalmanFilter.x
                 (KalmanFilter.filter_n (@KalmanFilter.new float _) m (S n)) in
      isNaN x = false
      /\ PrimFloat.eqb x m = true
      /\ (x - m)%float = 0%float
      /\ (x = m \/ (m = (-0)%float /\ x = 0%float)))
  /\
  (forall (r q m : R) (k : KalmanFilter.t xreal),
      (0 < q)%R -> (0 <= r)%R ->
      KalmanFilter.R k = Some r -> KalmanFilter.Q k = Some q ->
      KalmanFilter.A k = one -> KalmanFilter.C k = one ->
      KalmanFilter.B k = zero ->
      (isNaN (KalmanFilter.x k) = true
       \/ exists cv x0 : R,
           KalmanFilter.cov k = Some cv /\ KalmanFilter.x k = Some x0
           /\ (0 < cv)%R) ->
      forall eps : R, (0 < eps)%R ->
      exists n0 : nat, forall n : nat, (n0 <= n)%nat ->
      exists e : R,
        KalmanFilter.x (KalmanFilter.filter_n k (Some m) n) = Some e
        /\ (Rabs (e - m) < eps)%R).
Proof.
  split; [|split].
  - exact binary64_unit_estimate.
  - exact binary64_default_estimate.
  - exact constant_measurement_converges_exact.
Qed.

Lemma constant_measurement_converges_witness :
  (let X := fun calls =>
     KalmanFilter.x
       (KalmanFilter.filter_n
          (new_with float 0x1p-2%float 2%float 1%float 0%float 1%float)
          5%float calls) in
   PrimFloat.eqb (X 3) 5%float = true \/ isNaN (X 3) = true)
  /\ PrimFloat.eqb
       (KalmanFilter.x
          (KalmanFilter.filter_n (@KalmanFilter.new float _) 5%float 3))
       5%float = true
  /\ (exists n0 : nat, forall n : nat, (n0 <= n)%nat ->
      exists e : R,
        KalmanFilter.x
          (KalmanFilter.filter_n (@KalmanFilter.new xreal _) (Some 5%R) n)
        = Some e
        /\ (Rabs (e - 5) < 1)%R).
Proof.
  split; [|split].
  - apply (proj1 constant_measurement_converges 0x1p-2%float 2%float
             5%float 2 eq_refl).
  - apply (proj1 (proj2 constant_measurement_converges) 5%float 2 eq_refl).
  - apply (proj2 (proj2 constant_measurement_converges) 1%R 1%R 5%R
             (@KalmanFilter.new xreal _)); try reflexivity.
    + exact Rlt_0_1.
    + exact Rle_0_1.
    + left. reflexivity.
    + exact Rlt_0_1.
Defined.

(** C4 as stated fails in binary64.  With [Q = R = 1e308] (and
    [A = C = 1], [B = 0]) the predicted covariance overflows and the gain
    is NaN: a new filter fed the constant measurement 5 returns 5, NaN,
    5, NaN, ... for ever.  And an initialized filter can stop short of
    the measurement: with [Q = 1] and [R = 0.25], after [filter(0)], the
    constant measurement [2^1000] brings the estimate to the binary64
    number below [2^1000] by the 73rd call, where every further
    correction is rounded away; the error stays [2^947] for ever. *)
Lemma constant_measurement_need_not_converge :
  (let k := new_with float 0x1.1ccf385ebc8ap+1023%float
              0x1.1ccf385ebc8ap+1023%float 1%float 0%float 1%float in
   forall n : nat,
     KalmanFilter.x (KalmanFilter.filter_n k 5%float (1 + 2 * n)) = 5%float
     /\ isNaN (KalmanFilter.x (KalmanFilter.filter_n k 5%float (2 + 2 * n)))
        = true)
  /\
  (let k := new_with float 0x1p-2%float 1%float 1%float 0%float 1%float in
   let k1 := fst (KalmanFilter.filter1 k 0%float) in
   let m := 0x1p+1000%float in
   KalmanFilter.x k1 = 0%float
   /\ forall n : nat,
        KalmanFilter.x (KalmanFilter.filter_n k1 m (73 + n))
        = 0x1.fffffffffffffp+999%float
        /\ PrimFloat.sub m
             (KalmanFilter.x (KalmanFilter.filter_n k1 m (73 + n)))
           = 0x1p+947%float).
Proof.
  split.
  - cbv zeta. intros n.
    replace (1 + 2 * n) with (1 + n * 2) by lia.
    replace (2 + 2 * n) with (2 + n * 2) by lia.
    rewrite !filter_n_cycle by (vm_compute; reflexivity).
    split; vm_compute; reflexivity.
  - cbv zeta. split; [vm_compute; reflexivity|]. intros n.
    replace (73 + n) with (73 + n * 1) by lia.
    rewrite !filter_n_cycle by (vm_compute; reflexivity).
    split; vm_compute; reflexivity.
Qed.

(** ** C8: initialized and not *)

(** C8 as stated fails: the estimate being NaN is the uninitialized
    condition, and a later call can make the estimate NaN again.  In
    binary64 with the default parameters: after [filter(1)] the filter is
    initialized, [filter(NaN)] leaves the estimate NaN, and the next call
    [filter(5)] takes the first branch again and returns 5.  The same
    happens without any NaN measurement, through overflow: the finite
    measurements 1.7e308, -1.7e308, 1.7e308 leave the estimate NaN.
    And with [R = -2] the gain's divisor is 0 at the second call, which
    leaves the estimate NaN for the measurements 0, 0. *)
Lemma initialized_is_not_one_way :
  (let k0 := @KalmanFilter.new float _ in
   let k1 := fst (KalmanFilter.filter1 k0 1%float) in
   let k2 := fst (KalmanFilter.filter1 k1 nan) in
   isNaN (KalmanFilter.x k0) = true
   /\ isNaN (KalmanFilter.x k1) = false
   /\ isNaN (KalmanFilter.x k2) = true
   /\ KalmanFilter.filter1 k2 5%float
      = (KalmanFilter.mk 1%float 1%float 1%float 1%float 0%float
           1%float 5%float, 5%float))
  /\
  (let big := 0x1.e42d130773b76p+1023%float in
   let k1 := fst (KalmanFilter.filter1 (@KalmanFilter.new float _) big) in
   let k2 := fst (KalmanFilter.filter1 k1 (- big)%float) in
   let k3 := fst (KalmanFilter.filter1 k2 big) in
   isNaN (KalmanFilter.x k1) = false
   /\ KalmanFilter.x k2 = neg_infinity
   /\ isNaN (KalmanFilter.x k3) = true)
  /\
  (let k0 := KalmanFilter.mk (-2)%float 1%float 1%float 1%float 0%float
               nan nan in
   let k1 := fst (KalmanFilter.filter1 k0 0%float) in
   let k2 := fst (KalmanFilter.filter1 k1 0%float) in
   isNaN (KalmanFilter.x k1) = false
   /\ isNaN (KalmanFilter.x k2) = true).
Proof. vm_compute. repeat split. Qed.

Section StaysInitialized.
Local Open Scope R_scope.

(** In exact arithmetic, with [Q > 0] and [R >= 0], a filter that is
    initialized (its covariance not negative) is initialized after every
    sequence of calls with real measurements and controls; and with
    [C <> 0] the first call on a new filter, with a real measurement,
    initializes it so. *)
Lemma initialized_stays_initialized_exact
  (r q a c b : R) (zus : list (R * R)) :
  0 < q -> 0 <= r ->
  (forall cv x0 : R,
      0 <= cv ->
      isNaN (KalmanFilter.x
               (KalmanFilter.filter_seq (real_filter r q a c b cv x0)
                  (real_inputs zus))) = false)
  /\ (c <> 0 ->
      forall (z0 : R) (u0 : xreal),
        let k1 :=
          fst (KalmanFilter.filter (fresh_filter r q a c b) (Some z0) u0) in
        isNaN (KalmanFilter.x (fresh_filter r q a c b)) = true
        /\ isNaN (KalmanFilter.x k1) = false
        /\ isNaN (KalmanFilter.x
                    (KalmanFilter.filter_seq k1 (real_inputs zus))) = false).
Proof.
  intros Hq Hr.
  assert (Hseq : forall cv x0 : R,
             0 <= cv ->
             isNaN (KalmanFilter.x
                      (KalmanFilter.filter_seq (real_filter r q a c b cv x0)
                         (real_inputs zus))) = false).
  { intros cv x0 Hcv.
    destruct (filter_seq_real r q a c b Hq Hr zus cv x0 Hcv) as [x' E].
    rewrite E. reflexivity. }
  split; [exact Hseq|].
  intros Hc z0 u0. rewrite (filter_fresh_real r q a c b z0 u0 Hc).
  cbn [fst]. split; [reflexivity|]. split; [reflexivity|].
  apply Hseq. apply (next_cov_first r q a c Hq Hr Hc).
Qed.

End StaysInitialized.

(** A call with a NaN measurement returns NaN, in binary64, whatever
    the filter. *)
Lemma filter_nan_measurement (k : KalmanFilter.t float) (z u : float) :
  is_nan z = true ->
  isNaN (snd (KalmanFilter.filter k z u)) = true.
Proof.
  intros Hz. apply is_nan_eq in Hz. subst z.
  unfold KalmanFilter.filter.
  destruct (isNaN (KalmanFilter.x k)); cbn [snd KalmanFilter.x].
  - change (isNaN ?a) with (is_nan a).
    change (one / KalmanFilter.C k * nan)%js
      with (1 / KalmanFilter.C k * nan)%float.
    rewrite float_mul_nan_r. reflexivity.
  - change (isNaN ?a) with (is_nan a).
    match goal with
    | |- is_nan (?p + ?K * (nan - ?q))%js = true =>
        change (p + K * (nan - q))%js with (p + K * (nan - q))%float
    end.
    rewrite float_sub_nan_l, float_mul_nan_r, float_add_nan_r. reflexivity.
Qed.

(** A call on a filter whose estimate is NaN does what the first call on a
    new filter with the same parameters does. *)
Lemma filter_restarts (k : KalmanFilter.t float) (z u : float) :
  isNaN (KalmanFilter.x k) = true ->
  KalmanFilter.filter k z u
  = KalmanFilter.filter
      (new_with float (KalmanFilter.R k) (KalmanFilter.Q k)
         (KalmanFilter.A k) (KalmanFilter.B k) (KalmanFilter.C k)) z u.
Proof.
  intros H. rewrite filter_fresh by exact H.
  rewrite filter_fresh by reflexivity. reflexivity.
Qed.

(** C8, as amended.  The estimate being NaN is the uninitialized
    condition, tested at every call.  After a call the filter is
    uninitialized exactly when the call returned NaN, in any arithmetic
    (first part).  In binary64: a call on an uninitialized filter does
    what the first call on a new filter with the same parameters does,
    so that with [C = 1] it returns its measurement and initializes the
    filter again when that is a number (second part); a call with a NaN
    measurement leaves every filter uninitialized (third part); finite
    measurements can do the same through overflow, as 1.7e308,
    -1.7e308, 1.7e308 do on a default filter (fourth part); and a
    default filter fed a constant finite measurement is initialized
    after every call (fifth part).  In exact arithmetic, with [Q > 0]
    and [R >= 0], a filter that is initialized (its covariance not
    negative) is initialized after every sequence of calls with real
    measurements and controls; and with [C <> 0] the first call on a new
    filter, with a real measurement, initializes it so (sixth part). *)
Theorem initialized_while_estimate_is_number :
  (forall (T : Type) (N : Num T) (k : KalmanFilter.t T) (z u : T),
      isNaN (KalmanFilter.x (fst (KalmanFilter.filter k z u)))
      = isNaN (snd (KalmanFilter.filter k z u)))
  /\
  (forall (k : KalmanFilter.t float) (z u : float),
      isNaN (KalmanFilter.x k) = true ->
      KalmanFilter.filter k z u
      = KalmanFilter.filter
          (new_with float (KalmanFilter.R k) (KalmanFilter.Q k)
             (KalmanFilter.A k) (KalmanFilter.B k) (KalmanFilter.C k)) z u
      /\ (KalmanFilter.C k = 1%float ->
          snd (KalmanFilter.filter k z u) = z
          /\ isNaN (KalmanFilter.x (fst (KalmanFilter.filter k z u)))
             = isNaN z))
  /\
  (forall (k : KalmanFilter.t float) (z u : float),
      isNaN z = true ->
      isNaN (KalmanFilter.x (fst (KalmanFilter.filter k z u))) = true)
  /\
  (let big := 0x1.e42d130773b76p+1023%float in
   let k1 := fst (KalmanFilter.filter1 (@KalmanFilter.new float _) big) in
   let k2 := fst (KalmanFilter.filter1 k1 (- big)%float) in
   let k3 := fst (KalmanFilter.filter1 k2 big) in
   is_finite big = true
   /\ isNaN (KalmanFilter.x k1) = false
   /\ KalmanFilter.x k2 = neg_infinity
   /\ isNaN (KalmanFilter.x k3) = true)
  /\
  (forall (m : float) (n : nat),
      is_finite m = true ->
      isNaN (KalmanFilter.x
               (KalmanFilter.filter_n (@KalmanFilter.new float _) m (S n)))
      = false)
  /\
  (forall (r q a c b : R) (zus : list (R * R)),
      (0 < q)%R -> (0 <= r)%R ->
      (forall cv x0 : R,
          (0 <= cv)%R ->
          isNaN (KalmanFilter.x
                   (KalmanFilter.filter_seq (real_filter r q a c b cv x0)
                      (real_inputs zus))) = false)
      /\ (c <> 0%R ->
          forall (z0 : R) (u0 : xreal),
            let k1 :=
              fst (KalmanFilter.filter (fresh_filter r q a c b)
                     (Some z0) u0) in
            isNaN (KalmanFilter.x (fresh_filter r q a c b)) = true
            /\ isNaN (KalmanFilter.x k1) = false
            /\ isNaN (KalmanFilter.x
                        (KalmanFilter.filter_seq k1 (real_inputs zus)))
               = false)).
Proof.
  split; [|split; [|split; [|split; [|split]]]].
  - intros T N k z u. unfold KalmanFilter.filter.
    destruct (isNaN (KalmanFilter.x k)); reflexivity.
  - intros k z u H. split; [apply filter_restarts; exact H|].
    intros HC. rewrite filter_fresh by exact H.
    cbn [fst snd KalmanFilter.x]. rewrite HC.
    change (one / 1%float * z)%js with (1 * z)%float.
    rewrite float_mul_1_l. split; reflexivity.
  - intros k z u Hz.
    pose proof (filter_nan_measurement k z u Hz) as H.
    unfold KalmanFilter.filter in *.
    destruct (isNaN (KalmanFilter.x k)); exact H.
  - vm_compute. repeat split.
  - intros m n Hm. apply (binary64_default_estimate m n Hm).
  - exact initialized_stays_initialized_exact.
Qed.

Lemma initialized_while_estimate_is_number_witness :
  snd (KalmanFilter.filter (default_filter 1%float nan) 5%float 0%float)
  = 5%float
  /\ isNaN (KalmanFilter.x
              (fst (KalmanFilter.filter (default_filter 1%float 2%float)
                      nan 0%float))) = true
  /\ isNaN (KalmanFilter.x
              (KalmanFilter.filter_n (@KalmanFilter.new float _) 3%float 4))
     = false
  /\ isNaN (KalmanFilter.x
              (KalmanFilter.filter_seq (real_filter 1 1 1 1 0 1 0)
                 (real_inputs [(3, 0); (-2, 0)]%R))) = false.
Proof.
  split; [|split; [|split]].
  - apply (proj2 (proj1 (proj2 initialized_while_estimate_is_number)
                    (default_filter 1%float nan) 5%float 0%float eq_refl)).
    reflexivity.
  - apply (proj1 (proj2 (proj2 initialized_while_estimate_is_number))
             (default_filter 1%float 2%float) nan 0%float eq_refl).
  - apply (proj1 (proj2 (proj2 (proj2 (proj2
             initialized_while_estimate_is_number)))) 3%float 3 eq_refl).
  - apply (proj1 (proj2 (proj2 (proj2 (proj2 (proj2
             initialized_while_estimate_is_number)))) 1%R 1%R 1%R 1%R 0%R
             [(3, 0); (-2, 0)]%R Rlt_0_1 Rle_0_1) 1%R 0%R Rle_0_1).
Defined.

(** ** The peak tracker *)

Section Peak.
Context {T : Type} {N : Num T}.
Local Open Scope js_scope.

Lemma filter_frame (g : Globals T) (accel : Accel.t T) :
  max_acceleration (fst (filter g accel)) = max_acceleration g
  /\ hasData (fst (filter g accel)) = hasData g.
Proof.
  unfold filter.
  destruct (KalmanFilter.filter1 (filterX g) (Accel.x accel)).
  destruct (KalmanFilter.filter1 (filterY g) (Accel.y accel)).
  destruct (KalmanFilter.filter1 (filterZ g) (Accel.z accel)).
  split; reflexivity.
Qed.

(** [updateAcceleration] is [filter], then [consider]. *)
Lemma updateAcceleration_eq (g : Globals T) (accel : Accel.t T) :
  updateAcceleration g accel
  = consider (fst (filter g accel)) (snd (filter g accel)).
Proof.
  unfold updateAcceleration, consider, filter.
  cbn [filterX filterY filterZ max_acceleration hasData].
  destruct (KalmanFilter.filter1 (filterX g) (Accel.x accel)).
  destruct (KalmanFilter.filter1 (filterY g) (Accel.y accel)).
  destruct (KalmanFilter.filter1 (filterZ g) (Accel.z accel)).
  cbn [fst snd filterX filterY filterZ max_acceleration hasData Accel.mag].
  match goal with |- context [if ?c then _ else _] => destruct c end;
    reflexivity.
Qed.

Lemma consider_hasData (g : Globals T) (v : Accel.t T) :
  hasData (consider g v) = true.
Proof.
  unfold consider.
  destruct (Accel.mag v > Accel.mag (max_acceleration g)); reflexivity.
Qed.

Lemma updateAcceleration_hasData (g : Globals T) (accel : Accel.t T) :
  hasData (updateAcceleration g accel) = true.
Proof. rewrite updateAcceleration_eq. apply consider_hasData. Qed.

Lemma peak_inv_initial : peak_inv initial.
Proof. intros _. reflexivity. Qed.

Lemma peak_inv_handle (g : Globals T) (ev : event) :
  peak_inv (fst (handle g ev)).
Proof.
  destruct ev as [accel|env]; intros H; cbn in *.
  - rewrite updateAcceleration_hasData in H. discriminate.
  - reflexivity.
Qed.

(** The invariant holds in every state the event loop reaches. *)
Lemma peak_inv_run (evs : list event) (g : Globals T) :
  peak_inv g -> peak_inv (fst (run g evs)).
Proof.
  revert g. induction evs as [|ev evs IH]; intros g Hg; cbn.
  - exact Hg.
  - pose proof (peak_inv_handle g ev) as H1.
    destruct (handle g ev) as [g1 out1]. cbn in H1.
    specialize (IH g1 H1).
    destruct (run g1 evs) as [g2 out2]. exact IH.
Qed.

End Peak.

(** ** C5: the strict maximum *)

(** C5.  [consider(v)] stores [v] as the peak exactly when [v]'s
    magnitude is strictly greater than the stored peak's (0 while
    [hasData] is false) and keeps the stored peak otherwise, so on a tie;
    submitting [v] a second time changes nothing; and
    [updateAcceleration] treats so the vector [filter] returns for its
    sample. *)
Theorem consider_strict_maximum
  (T : Type) (N : Num T) (L : NumLaws T) (g : Globals T) (v : Accel.t T) :
  peak_inv g ->
  let stored := if hasData g then Accel.mag (max_acceleration g) else zero in
  max_acceleration (consider g v)
  = (if (Accel.mag v > stored)%js then v else max_acceleration g)
  /\ (Accel.mag v = stored ->
      max_acceleration (consider g v) = max_acceleration g)
  /\ consider (consider g v) v = consider g v
  /\ (forall accel : Accel.t T,
         let f := snd (filter g accel) in
         max_acceleration (updateAcceleration g accel)
         = (if (Accel.mag f > stored)%js then f else max_acceleration g)).
Proof.
  intros Hinv stored.
  assert (Hs : stored = Accel.mag (max_acceleration g)).
  { unfold stored. destruct (hasData g) eqn:E; [reflexivity|].
    rewrite (Hinv E). reflexivity. }
  rewrite Hs. split; [|split; [|split]].
  - unfold consider.
    destruct (Accel.mag v > Accel.mag (max_acceleration g))%js; reflexivity.
  - intros E. unfold consider. rewrite E, gt_irrefl. reflexivity.
  - unfold consider.
    destruct (Accel.mag v > Accel.mag (max_acceleration g))%js eqn:E; cbn.
    + rewrite gt_irrefl. reflexivity.
    + rewrite E. reflexivity.
  - intros accel f. rewrite updateAcceleration_eq. fold f.
    destruct (filter_frame g accel) as [Hm _].
    unfold consider. rewrite Hm.
    destruct (Accel.mag f > Accel.mag (max_acceleration g))%js;
      reflexivity.
Qed.

Lemma consider_strict_maximum_witness :
  max_acceleration
    (consider (@initial float _) (Accel.mk 0%float 3%float 0%float 3%float))
  = Accel.mk 0%float 3%float 0%float 3%float.
Proof.
  exact (proj1 (@consider_strict_maximum float _ float_NumLaws initial
                  (Accel.mk 0%float 3%float 0%float 3%float)
                  peak_inv_initial)).
Defined.

(** ** The timer tick *)

Section Tick.
Context {T : Type} {N : Num T}.
Local Open Scope js_scope.

Lemma gbSend_reports (throws : line T -> bool) (m : Message.msg T) :
  reports (gbSend throws m)
  = if throws Empty || throws (Json m) then [] else [m].
Proof.
  unfold gbSend.
  destruct (throws Empty); [reflexivity|].
  destruct (throws (Json m)); reflexivity.
Qed.

Lemma reports_app (out1 out2 : list (output T)) :
  reports (out1 ++ out2) = reports out1 ++ reports out2.
Proof.
  induction out1 as [|o out1 IH]; [reflexivity|].
  destruct o as [[|m]|]; cbn; rewrite IH; reflexivity.
Qed.

(** With the link up, the event loop prints one message per tick. *)
Lemma run_reports_count (evs : list event) (g : Globals T) :
  link_up evs -> List.length (reports (snd (run g evs))) = ticks evs.
Proof.
  revert g. induction evs as [|ev evs IH]; intros g Hup; [reflexivity|].
  cbn [run].
  destruct (handle g ev) as [g1 out1] eqn:Hh.
  specialize (IH g1).
  destruct (run g1 evs) as [g2 out2]. cbn [snd] in *.
  rewrite reports_app, length_app.
  destruct ev as [accel|env]; cbn in Hh, Hup |- *.
  - injection Hh as _ <-. cbn. apply IH. exact Hup.
  - destruct Hup as [Hl Hup]. rewrite (IH Hup).
    unfold sendAccelerationData in Hh. injection Hh as _ <-.
    rewrite gbSend_reports, !Hl. reflexivity.
Qed.

(** The samples of a window whose filtered magnitudes never exceed 0
    leave the zero vector as the stored peak. *)
Lemma feed_no_positive (samples : list (Accel.t T)) (g : Globals T) :
  max_acceleration g = zero_accel ->
  Forall (fun f => (Accel.mag f > zero) = false) (filtered g samples) ->
  max_acceleration (feed g samples) = zero_accel.
Proof.
  revert g. induction samples as [|a samples IH]; intros g Hz Hall.
  - exact Hz.
  - cbn in Hall. inversion Hall as [|f fs Hf Hfs]; subst.
    cbn [feed fold_left]. apply IH; [|exact Hfs].
    rewrite updateAcceleration_eq. unfold consider.
    destruct (filter_frame g a) as [Hm _]. rewrite Hm, Hz.
    cbn [zero_accel Accel.mag]. rewrite Hf. reflexivity.
Qed.

Lemma feed_hasData (samples : list (Accel.t T)) (g : Globals T) :
  samples <> [] -> hasData (feed g samples) = true.
Proof.
  destruct samples as [|a samples]; [congruence|]. intros _.
  cbn [feed fold_left].
  pose proof (updateAcceleration_hasData g a) as H.
  revert H. generalize (updateAcceleration g a).
  induction samples as [|b samples IH]; intros g' H; [exact H|].
  cbn [fold_left]. apply IH. apply updateAcceleration_hasData.
Qed.

(** With reporting disabled, or no configuration stored, the program
    registers no handler: it prints nothing and its state stays as
    initialized. *)
Lemma boot_disabled (config : option Config) (evs : list event) :
  match config with
  | Some c => enabled c = false
  | None => True
  end ->
  boot config evs = (initial, []).
Proof.
  destruct config as [c|]; cbn; [|reflexivity].
  intros H. rewrite H. reflexivity.
Qed.

End Tick.

(** ** C6: the flush *)

(** C6.  What [sendAccelerationData] reads and leaves is what
    [flushAndReset] returns: it reads the stored peak and the flag,
    hands [gbSend] the peak when the flag is set (a live sample
    otherwise), and leaves the zero vector with [hasData = false], the
    filters untouched.  So a flush at construction or right after a
    flush reads the zero vector and [false], and the state after a flush,
    hence the peak of the next window, does not depend on the peak state
    before it. *)
Theorem flush_resets_peak_state
  (T : Type) (N : Num T) (g : Globals T) (env : Env T) :
  let g' := fst (sendAccelerationData g env) in
  let peak := fst (fst (Spec.flushAndReset (peak_state g))) in
  let hadData := snd (fst (Spec.flushAndReset (peak_state g))) in
  (peak, hadData) = (max_acceleration g, hasData g)
  /\ snd (sendAccelerationData g env)
     = gbSend (println_throws env)
         (Message.mk "accel" (if hadData then peak else getAccel env))
  /\ peak_state g' = snd (Spec.flushAndReset (peak_state g))
  /\ peak_state g' = (zero_accel, false)
  /\ (filterX g', filterY g', filterZ g') = (filterX g, filterY g, filterZ g)
  /\ fst (Spec.flushAndReset (peak_state (@initial T N)))
     = (zero_accel, false)
  /\ fst (Spec.flushAndReset (peak_state g')) = (zero_accel, false)
  /\ (forall (peak0 : Accel.t T) (flag0 : bool) (env0 : Env T)
             (samples : list (Accel.t T)),
         feed (fst (sendAccelerationData
                      (mkGlobals (filterX g) (filterY g) (filterZ g)
                         peak0 flag0) env0)) samples
         = feed g' samples).
Proof.
  cbv zeta. repeat split.
Qed.

(** ** C7: one report per tick *)

(** C7.  A tick hands [gbSend] one message, of type "accel", carrying
    the stored peak when [hasData] is set and the sample read from the
    sensor when it is not; with the link up it is printed, after an empty
    line, and nothing else is; over a run of the event loop that makes
    one message per tick. *)
Theorem tick_reports_peak_or_live_sample
  (T : Type) (N : Num T) (g : Globals T) (env : Env T) :
  let chosen := if hasData g then max_acceleration g else getAccel env in
  let report := Message.mk "accel" chosen in
  (hasData g = false -> chosen = getAccel env)
  /\ (hasData g = true -> chosen = max_acceleration g)
  /\ snd (sendAccelerationData g env) = gbSend (println_throws env) report
  /\ ((forall l, println_throws env l = false) ->
      snd (sendAccelerationData g env)
      = [Println Empty; Println (Json report)]
      /\ reports (snd (sendAccelerationData g env)) = [report])
  /\ (forall m, In m (reports (snd (sendAccelerationData g env))) ->
      m = report)
  /\ List.length (reports (snd (sendAccelerationData g env))) <= 1
  /\ (forall evs, link_up evs ->
      List.length (reports (snd (run g evs))) = ticks evs).
Proof.
  cbv zeta. split; [|split; [|split; [|split; [|split; [|split]]]]].
  - intros H. rewrite H. reflexivity.
  - intros H. rewrite H. reflexivity.
  - reflexivity.
  - intros Hl. unfold sendAccelerationData. cbn [snd]. unfold gbSend.
    rewrite !Hl. split; reflexivity.
  - unfold sendAccelerationData. cbn [snd]. rewrite gbSend_reports.
    intros m Hm.
    destruct (println_throws env Empty || println_throws env _);
      cbn in Hm; [contradiction|].
    destruct Hm as [<-|[]]. reflexivity.
  - unfold sendAccelerationData. cbn [snd]. rewrite gbSend_reports.
    destruct (println_throws env Empty || println_throws env _); cbn; lia.
  - intros evs Hup. apply run_reports_count. exact Hup.
Qed.

(** A tick in the initial state, the link up: the sample read from the
    sensor is printed, after an empty line. *)
Lemma tick_reports_peak_or_live_sample_witness :
  snd (sendAccelerationData (@initial float _)
         {| getAccel := Accel.mk 0%float 0%float 1%float 1%float;
            println_throws := fun _ => false |})
  = [Println Empty;
     Println (Json (Message.mk "accel"
                      (Accel.mk 0%float 0%float 1%float 1%float)))].
Proof.
  exact (proj1 (proj1 (proj2 (proj2 (proj2
    (@tick_reports_peak_or_live_sample float float_Num initial
       {| getAccel := Accel.mk 0%float 0%float 1%float 1%float;
          println_throws := fun _ => false |}))))
    (fun _ => eq_refl))).
Defined.

(** ** C9: three samples *)

(** C9.  In binary64, from the initial state, the samples (1,0,0),
    (0,5,0), (0,0,2) (whatever their [mag]) leave the vector [filter]
    returned for the second one as the stored peak: its magnitude is
    greater than those of the first and of the third. *)
Theorem second_of_three_samples_is_peak (m1 m2 m3 : float) :
  let s1 := Accel.mk 1%float 0%float 0%float m1 in
  let s2 := Accel.mk 0%float 5%float 0%float m2 in
  let s3 := Accel.mk 0%float 0%float 2%float m3 in
  let f1 := snd (filter initial s1) in
  let f2 := snd (filter (feed initial [s1]) s2) in
  let f3 := snd (filter (feed initial [s1; s2]) s3) in
  max_acceleration (feed initial [s1; s2; s3]) = f2
  /\ hasData (feed initial [s1; s2; s3]) = true
  /\ f1 = Accel.mk 1%float 0%float 0%float 1%float
  /\ f2 = Accel.mk 0x1.5555555555556p-2%float 0x1.aaaaaaaaaaaaap+1%float
            0%float 0x1.accb7102ee295p+1%float
  /\ (Accel.mag f2 > Accel.mag f1)%js = true
  /\ (Accel.mag f2 > Accel.mag f3)%js = true.
Proof. vm_compute. repeat split. Qed.

(** ** C10: a window without a peak *)

(** C10.  [updateAcceleration] always sets [hasData]; so after a window
    that starts from the reset state and receives at least one sample,
    none with a filtered magnitude greater than 0 (in binary64 a
    magnitude that is NaN or 0 is not, [nan_or_zero_not_positive]), the
    tick reports the zero vector, not the sample [Bangle.getAccel()]
    would give. *)
Theorem sample_without_peak_reports_zero
  (T : Type) (N : Num T) (g : Globals T) (samples : list (Accel.t T))
  (env : Env T) :
  (forall accel, hasData (updateAcceleration g accel) = true)
  /\ (peak_state g = (zero_accel, false) ->
      samples <> [] ->
      Forall (fun f => (Accel.mag f > zero)%js = false)
        (filtered g samples) ->
      hasData (feed g samples) = true
      /\ max_acceleration (feed g samples) = zero_accel
      /\ snd (sendAccelerationData (feed g samples) env)
         = gbSend (println_throws env) (Message.mk "accel" zero_accel)).
Proof.
  split; [intros accel; apply updateAcceleration_hasData|].
  intros Hp Hne Hall. unfold peak_state in Hp. injection Hp as Hm Hd.
  pose proof (feed_hasData samples g Hne) as H1.
  pose proof (feed_no_positive samples g Hm Hall) as H2.
  split; [exact H1|]. split; [exact H2|].
  unfold sendAccelerationData. cbn [snd]. rewrite H1, H2. reflexivity.
Qed.

Lemma idle_window_nonempty : idle_window <> [].
Proof. discriminate. Qed.

Lemma idle_window_no_positive :
  Forall (fun f => (Accel.mag f > zero)%js = false)
    (filtered initial idle_window).
Proof. repeat constructor. Qed.

Lemma sample_without_peak_reports_zero_witness :
  forallb (fun f => PrimFloat.is_nan (Accel.mag f)
                    || PrimFloat.eqb (Accel.mag f) 0%float)
    (filtered initial idle_window) = true
  /\ snd (sendAccelerationData (feed initial idle_window)
            {| getAccel := Accel.mk 0%float 0%float 1%float 1%float;
               println_throws := fun _ => false |})
     = [Println Empty; Println (Json (Message.mk "accel" zero_accel))].
Proof.
  split; [reflexivity|].
  exact (proj2 (proj2 (proj2 (@sample_without_peak_reports_zero
     float float_Num initial idle_window
     {| getAccel := Accel.mk 0%float 0%float 1%float 1%float;
        println_throws := fun _ => false |}) eq_refl
     idle_window_nonempty idle_window_no_positive))).
Defined.

(** * Further properties *)

(** ** The order of binary64 and of exact numbers *)

Ltac order_cases :=
  repeat match goal with
  | H : context [Z.compare ?a ?b] |- _ =>
      destruct (Z.compare_spec a b); try discriminate H
  | |- context [Z.compare ?a ?b] =>
      destruct (Z.compare_spec a b)
  | H : context [Pos.compare ?a ?b] |- _ =>
      destruct (Pos.compare_spec a b); try discriminate H
  | |- context [Pos.compare ?a ?b] =>
      destruct (Pos.compare_spec a b)
  end.

Lemma SFltb_trans (a b c : spec_float) :
  SFltb a b = true -> SFltb b c = true -> SFltb a c = true.
Proof.
  unfold SFltb, SFcompare.
  destruct a as [sa|sa| |sa ma ea], b as [sb|sb| |sb mb eb],
    c as [sc|sc| |sc mc ec];
    try destruct sa; try destruct sb; try destruct sc;
    try discriminate; try reflexivity;
    change (Pos.compare_cont Eq) with Pos.compare;
    intros H1 H2; order_cases; subst; cbn in *;
    try reflexivity; try discriminate; try lia.
Qed.

#[export] Instance float_NumOrder : NumOrder float.
Proof.
  split. intros a b c. cbn. rewrite !ltb_spec.
  intros H1 H2. exact (SFltb_trans _ _ _ H2 H1).
Qed.

#[export] Instance xreal_NumOrder : NumOrder xreal.
Proof.
  split. intros [a|] [b|] [c|]; cbn; try discriminate.
  destruct (Rgt_dec a b), (Rgt_dec b c), (Rgt_dec a c);
    try discriminate; try reflexivity.
  intros _ _. exfalso. lra.
Qed.

(** ** The event loop and its collaborators *)

Section Loop.
Context {T : Type} {N : Num T}.




Lemma handle_with_env (env0 : Env T) (g : Globals T) (ev : event) :
  fst (handle g (with_env env0 ev)) = fst (handle g ev).
Proof. destruct ev; reflexivity. Qed.

Lemma run_with_env (env0 : Env T) (evs : list event) (g : Globals T) :
  fst (run g (map (with_env env0) evs)) = fst (run g evs).
Proof.
  revert g. induction evs as [|ev evs IH]; intros g; [reflexivity|].
  cbn [run map].
  pose proof (handle_with_env env0 g ev) as Hh.
  destruct (handle g (with_env env0 ev)) as [g1 out1].
  destruct (handle g ev) as [g1' out1']. cbn in Hh. subst g1'.
  specialize (IH g1).
  destruct (run g1 (map (with_env env0) evs)) as [g2 out2].
  destruct (run g1 evs) as [g2' out2']. exact IH.
Qed.

End Loop.


(** X2.  What the collaborators do at a tick never reaches the program's
    state: the filters, the stored peak and [hasData] after a run are the
    same whatever [Bluetooth.println] did and whatever
    [Bangle.getAccel()] returned.  In particular a tick whose
    transmission failed has reset the peak all the same. *)
Theorem state_ignores_collaborators
  (T : Type) (N : Num T) (env0 : Env T) (g : Globals T)
  (evs : list (@event T)) :
  fst (run g (map (with_env env0) evs)) = fst (run g evs)
  /\ (forall env : Env T,
         fst (sendAccelerationData g env)
         = mkGlobals (filterX g) (filterY g) (filterZ g) zero_accel false).
Proof.
  split; [apply run_with_env|]. intros env. reflexivity.
Qed.

(** ** The three filters *)

Section Axes.
Context {T : Type} {N : Num T}.

Lemma filter_axes (g : Globals T) (accel : Accel.t T) :
  filterX (fst (filter g accel))
  = fst (KalmanFilter.filter1 (filterX g) (Accel.x accel))
  /\ filterY (fst (filter g accel))
     = fst (KalmanFilter.filter1 (filterY g) (Accel.y accel))
  /\ filterZ (fst (filter g accel))
     = fst (KalmanFilter.filter1 (filterZ g) (Accel.z accel)).
Proof.
  unfold filter.
  destruct (KalmanFilter.filter1 (filterX g) (Accel.x accel)).
  destruct (KalmanFilter.filter1 (filterY g) (Accel.y accel)).
  destruct (KalmanFilter.filter1 (filterZ g) (Accel.z accel)).
  repeat split.
Qed.

Lemma consider_filters (g : Globals T) (v : Accel.t T) :
  filterX (consider g v) = filterX g
  /\ filterY (consider g v) = filterY g
  /\ filterZ (consider g v) = filterZ g.
Proof.
  unfold consider.
  destruct (gt (Accel.mag v) (Accel.mag (max_acceleration g)));
    repeat split.
Qed.

Lemma handle_axes (g : Globals T) (ev : event) :
  filterX (fst (handle g ev))
  = KalmanFilter.filter_seq (filterX g) (axis_inputs Accel.x (samples_of [ev]))
  /\ filterY (fst (handle g ev))
     = KalmanFilter.filter_seq (filterY g)
         (axis_inputs Accel.y (samples_of [ev]))
  /\ filterZ (fst (handle g ev))
     = KalmanFilter.filter_seq (filterZ g)
         (axis_inputs Accel.z (samples_of [ev])).
Proof.
  destruct ev as [accel|env]; cbn [handle fst samples_of axis_inputs map
    KalmanFilter.filter_seq fold_left snd].
  - rewrite updateAcceleration_eq.
    destruct (consider_filters (fst (filter g accel)) (snd (filter g accel)))
      as (-> & -> & ->).
    apply filter_axes.
  - repeat split.
Qed.

Lemma run_axes (evs : list event) (g : Globals T) :
  filterX (fst (run g evs))
  = KalmanFilter.filter_seq (filterX g) (axis_inputs Accel.x (samples_of evs))
  /\ filterY (fst (run g evs))
     = KalmanFilter.filter_seq (filterY g)
         (axis_inputs Accel.y (samples_of evs))
  /\ filterZ (fst (run g evs))
     = KalmanFilter.filter_seq (filterZ g)
         (axis_inputs Accel.z (samples_of evs)).
Proof.
  revert g. induction evs as [|ev evs IH]; intros g; [repeat split|].
  cbn [run].
  pose proof (handle_axes g ev) as (HX & HY & HZ).
  destruct (handle g ev) as [g1 out1]. cbn [fst] in HX, HY, HZ.
  specialize (IH g1).
  destruct (run g1 evs) as [g2 out2]. cbn [fst] in IH |- *.
  destruct IH as (IX & IY & IZ). rewrite IX, IY, IZ, HX, HY, HZ.
  destruct ev as [accel|env]; repeat split.
Qed.

End Axes.

(** X3.  Each of the three filters sees its own component of the samples
    and nothing else: after any run of the event loop, the x filter is
    what the calls [filter(accel.x)] of the samples, in order, make of
    it, whatever the other components were and wherever the ticks fell;
    and so for y and z.  The ticks reset the peak, never a filter. *)
Theorem filters_follow_their_axis
  (T : Type) (N : Num T) (g : Globals T) (evs : list (@event T)) :
  filterX (fst (run g evs))
  = KalmanFilter.filter_seq (filterX g) (axis_inputs Accel.x (samples_of evs))
  /\ filterY (fst (run g evs))
     = KalmanFilter.filter_seq (filterY g)
         (axis_inputs Accel.y (samples_of evs))
  /\ filterZ (fst (run g evs))
     = KalmanFilter.filter_seq (filterZ g)
         (axis_inputs Accel.z (samples_of evs)).
Proof. apply run_axes. Qed.

(** ** The peak of a window *)

Section WindowPeak.
Context {T : Type} {N : Num T} {L : NumLaws T} {O : NumOrder T}.

(** From any state: the stored peak after the samples is the one before
    or one of the filtered vectors, it is not below the one before, and
    no filtered vector is above it. *)
Lemma feed_peak (samples : list (Accel.t T)) (g : Globals T) :
  let p := max_acceleration (feed g samples) in
  (p = max_acceleration g \/ In p (filtered g samples))
  /\ (p = max_acceleration g
      \/ gt (Accel.mag p) (Accel.mag (max_acceleration g)) = true)
  /\ Forall (fun f => gt (Accel.mag f) (Accel.mag p) = false)
       (filtered g samples).
Proof.
  revert g. induction samples as [|a samples IH]; intros g.
  - cbn. split; [left; reflexivity|]. split; [left; reflexivity|constructor].
  - cbn [feed fold_left filtered].
    specialize (IH (updateAcceleration g a)). cbv zeta in IH.
    change (fold_left updateAcceleration samples (updateAcceleration g a))
      with (feed (updateAcceleration g a) samples) in *.
    set (p := max_acceleration (feed (updateAcceleration g a) samples)) in *.
    set (f := snd (filter g a)) in *.
    destruct IH as (Hin & Hge & Hall).
    (* the state after the first sample *)
    assert (H1 : (max_acceleration (updateAcceleration g a) = f
                  /\ gt (Accel.mag f) (Accel.mag (max_acceleration g)) = true)
                 \/ (max_acceleration (updateAcceleration g a)
                     = max_acceleration g
                     /\ gt (Accel.mag f) (Accel.mag (max_acceleration g))
                        = false)).
    { rewrite updateAcceleration_eq. fold f.
      destruct (filter_frame g a) as [Hm _]. unfold consider. rewrite Hm.
      destruct (gt (Accel.mag f) (Accel.mag (max_acceleration g)));
        [left|right]; split; reflexivity. }
    cbv zeta. split; [|split].
    + destruct Hin as [Hin|Hin]; [|right; right; exact Hin].
      destruct H1 as [[E _]|[E _]]; rewrite E in Hin.
      * right. left. symmetry. exact Hin.
      * left. exact Hin.
    + destruct H1 as [[E Hgt]|[E _]]; rewrite E in Hge.
      * right. destruct Hge as [->|Hge]; [exact Hgt|].
        exact (gt_trans _ _ _ Hge Hgt).
      * exact Hge.
    + constructor; [|exact Hall].
      (* the first filtered vector is not above the final peak *)
      assert (Hf1 : gt (Accel.mag f)
                      (Accel.mag (max_acceleration (updateAcceleration g a)))
                    = false).
      { destruct H1 as [[E _]|[E Hngt]]; rewrite E;
          [apply gt_irrefl|exact Hngt]. }
      destruct Hge as [->|Hge]; [exact Hf1|].
      destruct (gt (Accel.mag f) (Accel.mag p)) eqn:Hfp; [|reflexivity].
      rewrite (gt_trans _ _ _ Hfp Hge) in Hf1. discriminate.
Qed.

End WindowPeak.

(** X4.  What a window leaves as the stored peak is a maximum of the
    window: starting from the reset state, after any samples the stored
    peak is the zero vector or one of the vectors [filter] returned for
    them, no returned vector has a magnitude greater than the stored
    peak's, and a stored peak other than the zero vector has a magnitude
    greater than 0 (so never NaN).  This holds in any arithmetic whose
    [>] is irreflexive and transitive, as binary64 and the exact one
    are. *)
Theorem window_peak_is_maximum
  (T : Type) (N : Num T) (L : NumLaws T) (O : NumOrder T)
  (g : Globals T) (samples : list (Accel.t T)) :
  peak_state g = (zero_accel, false) ->
  let p := max_acceleration (feed g samples) in
  (p = zero_accel \/ In p (filtered g samples))
  /\ Forall (fun f => (Accel.mag f > Accel.mag p)%js = false)
       (filtered g samples)
  /\ (p = zero_accel \/ (Accel.mag p > zero)%js = true).
Proof.
  intros Hp p. unfold peak_state in Hp. injection Hp as Hm _.
  destruct (feed_peak samples g) as (Hin & Hge & Hall).
  fold p in Hin, Hge, Hall. rewrite Hm in Hin, Hge.
  split; [exact Hin|]. split; [exact Hall|exact Hge].
Qed.

Lemma window_peak_is_maximum_witness :
  let samples := [Accel.mk 1%float 0%float 0%float 0%float;
                  Accel.mk 0%float 5%float 0%float 0%float;
                  Accel.mk 0%float 0%float 2%float 0%float] in
  Forall (fun f => (Accel.mag f
                    > Accel.mag (max_acceleration (feed initial samples)))%js
                   = false)
    (filtered initial samples).
Proof.
  exact (proj1 (proj2 (@window_peak_is_maximum float float_Num
    float_NumLaws float_NumOrder initial
    [Accel.mk 1%float 0%float 0%float 0%float;
     Accel.mk 0%float 5%float 0%float 0%float;
     Accel.mk 0%float 0%float 2%float 0%float] eq_refl))).
Defined.

(** ** The filter's parameters *)

Section Parameters.
Context {T : Type} {N : Num T}.

Lemma filter_parameters (k : KalmanFilter.t T) (z u : T) :
  let k' := fst (KalmanFilter.filter k z u) in
  KalmanFilter.R k' = KalmanFilter.R k
  /\ KalmanFilter.Q k' = KalmanFilter.Q k
  /\ KalmanFilter.A k' = KalmanFilter.A k
  /\ KalmanFilter.B k' = KalmanFilter.B k
  /\ KalmanFilter.C k' = KalmanFilter.C k.
Proof.
  unfold KalmanFilter.filter.
  destruct (isNaN (KalmanFilter.x k)); repeat split.
Qed.

Lemma filter_seq_parameters (zus : list (T * T)) (k : KalmanFilter.t T) :
  let k' := KalmanFilter.filter_seq k zus in
  KalmanFilter.R k' = KalmanFilter.R k
  /\ KalmanFilter.Q k' = KalmanFilter.Q k
  /\ KalmanFilter.A k' = KalmanFilter.A k
  /\ KalmanFilter.B k' = KalmanFilter.B k
  /\ KalmanFilter.C k' = KalmanFilter.C k.
Proof.
  revert k. induction zus as [|[z u] zus IH]; intros k; [repeat split|].
  cbn [KalmanFilter.filter_seq fold_left fst snd].
  specialize (IH (fst (KalmanFilter.filter k z u))). cbv zeta in IH.
  unfold KalmanFilter.filter_seq in IH.
  destruct IH as (HR & HQ & HA & HB & HC).
  destruct (filter_parameters k z u) as (ER & EQ & EA & EB & EC).
  cbv zeta. rewrite HR, HQ, HA, HB, HC. repeat split; assumption.
Qed.

End Parameters.

(** X5.  [filter] never touches the parameters: after any sequence of
    calls, [R] and [Q] are the values last set with [setProcessNoise]
    and [setMeasurementNoise] (in either order) and [A], [B], [C] those
    of the constructor.  The two setters leave the estimate and the
    covariance as they were, and [lastMeasurement()] after a call of
    [filter] is the value that call returned. *)
Theorem parameters_are_as_last_set
  (T : Type) (N : Num T) (k : KalmanFilter.t T) (r q : T)
  (zus : list (T * T)) :
  let k1 := KalmanFilter.setMeasurementNoise
              (KalmanFilter.setProcessNoise k r) q in
  let k' := KalmanFilter.filter_seq k1 zus in
  (KalmanFilter.R k' = r /\ KalmanFilter.Q k' = q
   /\ KalmanFilter.A k' = KalmanFilter.A k
   /\ KalmanFilter.B k' = KalmanFilter.B k
   /\ KalmanFilter.C k' = KalmanFilter.C k)
  /\ k1 = KalmanFilter.setProcessNoise
            (KalmanFilter.setMeasurementNoise k q) r
  /\ (KalmanFilter.x k1 = KalmanFilter.x k
      /\ KalmanFilter.cov k1 = KalmanFilter.cov k)
  /\ (forall z u : T,
         KalmanFilter.lastMeasurement (fst (KalmanFilter.filter k z u))
         = snd (KalmanFilter.filter k z u)).
Proof.
  cbv zeta. split; [|split; [reflexivity|split; [split; reflexivity|]]].
  - apply (filter_seq_parameters zus
             (KalmanFilter.setMeasurementNoise
                (KalmanFilter.setProcessNoise k r) q)).
  - intros z u. unfold KalmanFilter.filter, KalmanFilter.lastMeasurement.
    destruct (isNaN (KalmanFilter.x k)); reflexivity.
Qed.

(** ** The covariance of a default filter, in binary64 *)

(** A call on a filter with the default parameters: the covariance it
    leaves is 1 when the estimate was NaN, and else depends on the
    covariance before only. *)
Lemma default_call (cv x z u : float) :
  exists x' : float,
    KalmanFilter.filter (default_filter cv x) z u
    = (default_filter (if is_nan x then 1%float else next_cov64 cv) x', x').
Proof.
  unfold KalmanFilter.filter. cbn [KalmanFilter.x default_filter].
  change (isNaN x) with (is_nan x).
  destruct (is_nan x); eexists; reflexivity.
Qed.

Lemma default_seq (zus : list (float * float)) (j : nat) (x : float) :
  exists (j' : nat) (x' : float),
    KalmanFilter.filter_seq (default_filter (cov64_after j) x) zus
    = default_filter (cov64_after j') x'
    /\ j' <= j + List.length zus.
Proof.
  revert j x. induction zus as [|[z u] zus IH]; intros j x.
  - exists j, x. split; [reflexivity|]. cbn. lia.
  - cbn [KalmanFilter.filter_seq fold_left fst snd].
    destruct (default_call (cov64_after j) x z u) as [x1 E]. rewrite E.
    cbn [fst]. destruct (is_nan x).
    + destruct (IH 0 x1) as (j' & x' & E' & Hj).
      exists j', x'. split; [exact E'|]. cbn [List.length]. lia.
    + rewrite <- cov64_after_S.
      destruct (IH (S j) x1) as (j' & x' & E' & Hj).
      exists j', x'. split; [exact E'|]. cbn [List.length]. lia.
Qed.

Lemma default_seq_new (z0 u0 : float) (zus : list (float * float)) :
  exists (j : nat) (x : float),
    KalmanFilter.filter_seq (@KalmanFilter.new float _) ((z0, u0) :: zus)
    = default_filter (cov64_after j) x
    /\ j <= List.length zus.
Proof.
  cbn [KalmanFilter.filter_seq fold_left fst snd].
  destruct (default_call nan nan z0 u0) as [x1 E].
  change (@KalmanFilter.new float _) with (default_filter nan nan).
  rewrite E. cbn [fst].
  change (if is_nan nan then 1%float else next_cov64 nan)
    with (cov64_after 0).
  destruct (default_seq zus 0 x1) as (j & x & E' & Hj).
  exists j, x. split; [exact E'|exact Hj].
Qed.

Lemma in_range64_first : forallb in_range64 (seq 0 20) = true.
Proof. vm_compute. reflexivity. Qed.

Lemma in_range64_all (n : nat) : in_range64 n = true.
Proof.
  induction n as [n IH] using lt_wf_ind.
  destruct (Nat.lt_ge_cases n 20) as [Hlt|Hge].
  - pose proof in_range64_first as H.
    rewrite forallb_forall in H. apply H. apply in_seq. lia.
  - replace n with (n - 2 + 2) by lia. unfold in_range64.
    rewrite uncertainty64_period, cov64_period by lia. apply IH. lia.
Qed.

(** X7.  In binary64, a filter with the default parameters keeps its
    covariance and its uncertainty in a fixed range, whatever it is
    fed: after every sequence of calls, with any measurements and
    controls (NaN and the infinities included), the covariance is one of
    the numbers a run of number-valued calls goes through, it lies
    between 0.6180339887498947 and 1, and [uncertainty()] lies between
    1.6180339887498947 and 2. *)
Theorem default_covariance_stays_in_range
  (z0 u0 : float) (zus : list (float * float)) :
  let k :=
    KalmanFilter.filter_seq (@KalmanFilter.new float _) ((z0, u0) :: zus) in
  (exists j : nat, j <= List.length zus /\ KalmanFilter.cov k = cov64_after j)
  /\ PrimFloat.leb 0x1.3c6ef372fe94ep-1 (KalmanFilter.cov k) = true
  /\ PrimFloat.leb (KalmanFilter.cov k) 1 = true
  /\ PrimFloat.leb 0x1.9e3779b97f4a7p+0 (KalmanFilter.uncertainty k) = true
  /\ PrimFloat.leb (KalmanFilter.uncertainty k) 2 = true.
Proof.
  intros k. destruct (default_seq_new z0 u0 zus) as (j & x & E & Hj).
  subst k. rewrite E.
  pose proof (in_range64_all j) as H. unfold in_range64 in H.
  apply andb_true_iff in H. destruct H as [H H4].
  apply andb_true_iff in H. destruct H as [H H3].
  apply andb_true_iff in H. destruct H as [H1 H2].
  split; [exists j; split; [exact Hj|reflexivity]|].
  repeat split; assumption.
Qed.

(** ** Estimates that are not finite, in binary64 *)

(** X8.  In binary64, on an initialized filter, whatever the
    measurement and the control are: when the gain's divisor
    [C * uncertainty() * C + Q] is a zero, [filter] returns a value that
    is not finite, an infinity or NaN; and when the estimate is
    infinite, [predict] and [filter] return values that are not
    finite.  The program does not catch either case. *)
Theorem non_finite_estimate_propagates
  (k : KalmanFilter.t float) (z u : float) :
  isNaN (KalmanFilter.x k) = false ->
  (PrimFloat.eqb
     (KalmanFilter.C k * KalmanFilter.uncertainty k * KalmanFilter.C k
      + KalmanFilter.Q k)%float 0 = true ->
   is_finite (snd (KalmanFilter.filter k z u)) = false)
  /\ (is_finite (KalmanFilter.x k) = false ->
      is_finite (KalmanFilter.predict k u) = false
      /\ is_finite (snd (KalmanFilter.filter k z u)) = false).
Proof.
  intros Hx. rewrite filter_initialized by exact Hx. cbv zeta. cbn [snd].
  split.
  - intros Hd. apply add_not_finite_r, mul_not_finite_l, mul_not_finite_r.
    apply recip_zero_not_finite. exact Hd.
  - intros Hinf.
    assert (Hp : is_finite (KalmanFilter.predict k u) = false).
    { apply add_not_finite_l, mul_not_finite_r. exact Hinf. }
    split; [exact Hp|]. apply add_not_finite_l. exact Hp.
Qed.

(** With [R = -2], the covariance 1 and the estimate 0, the gain's
    divisor is 0: [filter(1)] returns -Infinity, and the call after it
    NaN. *)
Lemma non_finite_estimate_propagates_witness :
  is_finite
    (snd (KalmanFilter.filter
            (KalmanFilter.mk (-2)%float 1%float 1%float 1%float 0%float
               1%float 0%float) 1%float 0%float)) = false
  /\ is_finite
       (snd (KalmanFilter.filter
               (KalmanFilter.mk (-2)%float 1%float 1%float 1%float 0%float
                  neg_infinity neg_infinity) 1%float 0%float)) = false.
Proof.
  split.
  - refine (proj1 (non_finite_estimate_propagates _ 1%float 0%float _) _);
      vm_compute; reflexivity.
  - refine (proj2 (proj2 (non_finite_estimate_propagates _ 1%float 0%float _)
                     _));
      vm_compute; reflexivity.
Defined.

(** ** The first sample, in binary64 *)

Lemma filter1_new64 (z : float) :
  KalmanFilter.filter1 (@KalmanFilter.new float _) z
  = (default_filter 1%float z, z).
Proof.
  unfold KalmanFilter.filter1. rewrite filter_fresh by reflexivity.
  change (@KalmanFilter.C float KalmanFilter.new) with 1%float.
  change (@KalmanFilter.Q float KalmanFilter.new) with 1%float.
  change (one / 1%float)%js with 1%float.
  change (1%float * 1%float * 1%float)%js with 1%float.
  change (1%float * z)%js with (1 * z)%float.
  rewrite float_mul_1_l. reflexivity.
Qed.

(** X9.  In binary64, the first sample after startup passes the filters
    unchanged, whatever numbers it holds (NaN and the infinities
    included): [filter] returns its three components as they are, with
    the magnitude [Math.sqrt(x*x + y*y + z*z)], and leaves each filter
    with the covariance 1 and the component as estimate.
    [updateAcceleration] stores that vector as the peak when its
    magnitude is greater than 0, and the tick after it reports what is
    stored. *)
Theorem first_sample_passes_unchanged
  (accel : Accel.t float) (env : Env float) :
  let raw :=
    Accel.mk (Accel.x accel) (Accel.y accel) (Accel.z accel)
      (PrimFloat.sqrt (Accel.x accel * Accel.x accel
                       + Accel.y accel * Accel.y accel
                       + Accel.z accel * Accel.z accel)%float) in
  let stored := if PrimFloat.ltb 0 (Accel.mag raw) then raw else zero_accel in
  filter initial accel
  = (mkGlobals (default_filter 1%float (Accel.x accel))
       (default_filter 1%float (Accel.y accel))
       (default_filter 1%float (Accel.z accel)) zero_accel false,
     raw)
  /\ updateAcceleration initial accel
     = mkGlobals (default_filter 1%float (Accel.x accel))
         (default_filter 1%float (Accel.y accel))
         (default_filter 1%float (Accel.z accel)) stored true
  /\ snd (sendAccelerationData (updateAcceleration initial accel) env)
     = gbSend (println_throws env) (Message.mk "accel" stored).
Proof.
  cbv zeta.
  assert (E : filter initial accel
              = (mkGlobals (default_filter 1%float (Accel.x accel))
                   (default_filter 1%float (Accel.y accel))
                   (default_filter 1%float (Accel.z accel)) zero_accel false,
                 Accel.mk (Accel.x accel) (Accel.y accel) (Accel.z accel)
                   (PrimFloat.sqrt (Accel.x accel * Accel.x accel
                                    + Accel.y accel * Accel.y accel
                                    + Accel.z accel * Accel.z accel)%float))).
  { unfold filter, initial.
    cbn [filterX filterY filterZ max_acceleration hasData].
    rewrite !filter1_new64. reflexivity. }
  assert (U : updateAcceleration initial accel
              = mkGlobals (default_filter 1%float (Accel.x accel))
                  (default_filter 1%float (Accel.y accel))
                  (default_filter 1%float (Accel.z accel))
                  (if PrimFloat.ltb 0
                        (PrimFloat.sqrt (Accel.x accel * Accel.x accel
                                         + Accel.y accel * Accel.y accel
                                         + Accel.z accel * Accel.z accel))
                   then
                     Accel.mk (Accel.x accel) (Accel.y accel) (Accel.z accel)
                       (PrimFloat.sqrt (Accel.x accel * Accel.x accel
                                        + Accel.y accel * Accel.y accel
                                        + Accel.z accel * Accel.z accel)%float)
                   else zero_accel) true).
  { rewrite updateAcceleration_eq, E. unfold consider.
    cbn [fst snd filterX filterY filterZ max_acceleration hasData Accel.mag].
    change (gt ?m (Accel.mag zero_accel)) with (PrimFloat.ltb 0 m).
    destruct (PrimFloat.ltb 0
                (PrimFloat.sqrt (Accel.x accel * Accel.x accel
                                 + Accel.y accel * Accel.y accel
                                 + Accel.z accel * Accel.z accel)));
      reflexivity. }
  split; [exact E|]. split; [exact U|].
  rewrite U. reflexivity.
Qed.

(** ** The default uncertainty and the golden ratio, in binary64 *)

(** While the calls return numbers, the covariance of a default filter
    depends on the number of calls only. *)
Lemma default_seq_numbers (zus : list (float * float)) (j : nat) (x : float) :
  is_nan x = false ->
  Forall (fun e => is_nan e = false)
    (filter_returns (default_filter (cov64_after j) x) zus) ->
  exists x' : float,
    KalmanFilter.filter_seq (default_filter (cov64_after j) x) zus
    = default_filter (cov64_after (j + List.length zus)) x'.
Proof.
  revert j x. induction zus as [|[z u] zus IH]; intros j x Hx Hall.
  - exists x. cbn. rewrite Nat.add_0_r. reflexivity.
  - cbn [filter_returns] in Hall.
    cbn [KalmanFilter.filter_seq fold_left fst snd].
    destruct (default_call (cov64_after j) x z u) as [x1 E].
    rewrite E in Hall. rewrite E. cbn [fst snd] in *.
    rewrite Hx in *. rewrite <- cov64_after_S in *.
    inversion Hall as [|e l He Hl]; subst.
    destruct (IH (S j) x1 He Hl) as [x' E'].
    exists x'. fold (KalmanFilter.filter_seq
                       (default_filter (cov64_after (S j)) x1) zus).
    rewrite E'. cbn [List.length].
    replace (S j + List.length zus) with (j + S (List.length zus)) by lia.
    reflexivity.
Qed.

Lemma default_seq_new_numbers (z0 u0 : float) (zus : list (float * float)) :
  Forall (fun e => is_nan e = false)
    (filter_returns (@KalmanFilter.new float _) ((z0, u0) :: zus)) ->
  exists x : float,
    KalmanFilter.filter_seq (@KalmanFilter.new float _) ((z0, u0) :: zus)
    = default_filter (cov64_after (List.length zus)) x.
Proof.
  intros Hall. cbn [filter_returns] in Hall.
  cbn [KalmanFilter.filter_seq fold_left fst snd].
  destruct (default_call nan nan z0 u0) as [x1 E].
  change (@KalmanFilter.new float _) with (default_filter nan nan) in *.
  rewrite E in Hall. rewrite E. cbn [fst snd] in *.
  change (if is_nan nan then 1%float else next_cov64 nan)
    with (cov64_after 0) in *.
  inversion Hall as [|e l He Hl]; subst.
  destruct (default_seq_numbers zus 0 x1 He Hl) as [x' E'].
  exists x'. exact E'.
Qed.

Lemma sqrt5_bounds : (2 < sqrt 5 < 3 /\ sqrt 5 * sqrt 5 = 5)%R.
Proof.
  assert (H5 : (sqrt 5 * sqrt 5 = 5)%R) by (apply sqrt_sqrt; lra).
  assert (Hp : (0 <= sqrt 5)%R) by apply sqrt_pos.
  split; [|exact H5]. split; nra.
Qed.

(** A fraction [t / p] is below the golden ratio when
    [(2t - p)^2 < 5 p^2], and above it when [(2t - p)^2 > 5 p^2]. *)
Lemma below_golden_ratio (t p : R) :
  (0 < p)%R -> (0 <= 2 * t - p)%R ->
  ((2 * t - p) * (2 * t - p) < 5 * (p * p))%R ->
  (t / p < golden_ratio)%R.
Proof.
  intros Hp Ht Hsq. destruct sqrt5_bounds as [[Hs _] H5].
  unfold golden_ratio.
  apply (Rmult_lt_reg_r p); [exact Hp|].
  replace (t / p * p)%R with t by (field; lra).
  assert (2 * t - p < sqrt 5 * p)%R; [|lra].
  apply Rnot_le_lt. intros Hle.
  assert (0 < sqrt 5 * p)%R by nra.
  assert ((sqrt 5 * p) * (sqrt 5 * p) <= (2 * t - p) * (2 * t - p))%R
    by nra.
  replace ((sqrt 5 * p) * (sqrt 5 * p))%R
    with ((sqrt 5 * sqrt 5) * (p * p))%R in * by ring.
  rewrite H5 in *. lra.
Qed.

Lemma above_golden_ratio (t p : R) :
  (0 < p)%R -> (0 <= 2 * t - p)%R ->
  (5 * (p * p) < (2 * t - p) * (2 * t - p))%R ->
  (golden_ratio < t / p)%R.
Proof.
  intros Hp Ht Hsq. destruct sqrt5_bounds as [[Hs _] H5].
  unfold golden_ratio.
  apply (Rmult_lt_reg_r p); [exact Hp|].
  replace (t / p * p)%R with t by (field; lra).
  assert (sqrt 5 * p < 2 * t - p)%R; [|lra].
  apply Rnot_le_lt. intros Hle.
  assert (0 < sqrt 5 * p)%R by nra.
  assert ((2 * t - p) * (2 * t - p) <= (sqrt 5 * p) * (sqrt 5 * p))%R
    by nra.
  replace ((sqrt 5 * p) * (sqrt 5 * p))%R
    with ((sqrt 5 * sqrt 5) * (p * p))%R in * by ring.
  rewrite H5 in *. lra.
Qed.

(** The two binary64 numbers [golden_below] and [golden_above] are
    neighbours, and the golden ratio lies between them. *)
Lemma IZR_two52 : IZR (Zpos two52) = (2 ^ 52)%R.
Proof.
  change 2%R with (IZR 2). rewrite pow_IZR. apply f_equal.
  vm_compute. reflexivity.
Qed.

Lemma float_value_golden :
  float_value golden_below
  = (IZR (Zpos golden_mantissa) / IZR (Zpos two52))%R
  /\ float_value golden_above
     = (IZR (Zpos golden_mantissa + 1) / IZR (Zpos two52))%R.
Proof.
  assert (E1 : Prim2SF golden_below = S754_finite false golden_mantissa (-52))
    by (vm_compute; reflexivity).
  assert (E2 : Prim2SF golden_above
               = S754_finite false (golden_mantissa + 1) (-52))
    by (vm_compute; reflexivity).
  assert (Ep : powerRZ 2 (-52) = (/ IZR (Zpos two52))%R).
  { rewrite IZR_two52. reflexivity. }
  unfold float_value. rewrite E1, E2. unfold SF2R. rewrite Ep.
  split.
  - unfold Rdiv. ring.
  - unfold Rdiv. rewrite Pos2Z.inj_add. ring.
Qed.

Lemma golden_ratio_between :
  (float_value golden_below < golden_ratio < float_value golden_above)%R
  /\ (float_value golden_above - float_value golden_below
      = powerRZ 2 (-52))%R.
Proof.
  destruct float_value_golden as [E1 E2]. rewrite E1, E2.
  assert (Hp : (0 < IZR (Zpos two52))%R) by (apply IZR_lt; reflexivity).
  split; [split|].
  - apply below_golden_ratio; [exact Hp| |].
    + rewrite <- mult_IZR, <- minus_IZR. apply IZR_le.
      vm_compute. discriminate.
    + rewrite <- !mult_IZR, <- !minus_IZR, <- !mult_IZR. apply IZR_lt.
      vm_compute. reflexivity.
  - apply above_golden_ratio; [exact Hp| |].
    + rewrite <- mult_IZR, <- minus_IZR. apply IZR_le.
      vm_compute. discriminate.
    + rewrite <- !mult_IZR, <- !minus_IZR, <- !mult_IZR. apply IZR_lt.
      vm_compute. reflexivity.
  - rewrite plus_IZR.
    replace (powerRZ 2 (-52)) with (/ IZR (Zpos two52))%R
      by (rewrite IZR_two52; reflexivity).
    field. lra.
Qed.

(** X10.  In binary64, while the calls on a filter with the default
    parameters return numbers, whatever the measurements and controls
    are, the value of [uncertainty()] depends on the number of calls
    only; from the 20th call on it is one of the two neighbouring
    binary64 numbers 1.6180339887498947 and 1.618033988749895, between
    which the golden ratio [(1 + sqrt 5) / 2] lies. *)
Theorem default_uncertainty_settles_at_golden_ratio
  (z0 u0 : float) (zus : list (float * float)) :
  Forall (fun e => is_nan e = false)
    (filter_returns (@KalmanFilter.new float _) ((z0, u0) :: zus)) ->
  let p :=
    KalmanFilter.uncertainty
      (KalmanFilter.filter_seq (@KalmanFilter.new float _)
         ((z0, u0) :: zus)) in
  p = uncertainty64_after (List.length zus)
  /\ (19 <= List.length zus -> p = golden_below \/ p = golden_above)
  /\ (float_value golden_below < golden_ratio
      < float_value golden_above)%R
  /\ (float_value golden_above - float_value golden_below
      = powerRZ 2 (-52))%R.
Proof.
  intros Hall p.
  destruct (default_seq_new_numbers z0 u0 zus Hall) as [x E].
  assert (Ep : p = uncertainty64_after (List.length zus)).
  { unfold p. rewrite E. reflexivity. }
  split; [exact Ep|]. split; [|exact golden_ratio_between].
  intros Hn. rewrite Ep.
  destruct (Nat.Even_or_Odd (List.length zus - 19)) as [[k Hk]|[k Hk]].
  - left. replace (List.length zus) with (19 + 2 * k) by lia.
    exact (proj1 (uncertainty64_alternates k)).
  - right. replace (List.length zus) with (20 + 2 * k) by lia.
    exact (proj2 (uncertainty64_alternates k)).
Qed.

Lemma default_uncertainty_settles_at_golden_ratio_witness :
  KalmanFilter.uncertainty
    (KalmanFilter.filter_seq (@KalmanFilter.new float _)
       [(1%float, 0%float); (3%float, 0%float); (2%float, 0%float)])
  = uncertainty64_after 2.
Proof.
  apply (default_uncertainty_settles_at_golden_ratio 1%float 0%float
           [(3%float, 0%float); (2%float, 0%float)]).
  repeat constructor.
Defined.

(** ** The flag and the reports over a run *)

Section Reports.
Context {T : Type} {N : Num T}.

Lemma run_pending (evs : list event) (g : Globals T) :
  hasData (fst (run g evs)) = pending (hasData g) evs.
Proof.
  revert g. induction evs as [|ev evs IH]; intros g; [reflexivity|].
  cbn [run].
  destruct (handle g ev) as [g1 out1] eqn:Hh.
  specialize (IH g1).
  destruct (run g1 evs) as [g2 out2]. cbn [fst] in *.
  rewrite IH. destruct ev as [accel|env]; cbn in Hh |- *.
  - injection Hh as <- _. rewrite updateAcceleration_hasData. reflexivity.
  - unfold sendAccelerationData in Hh. injection Hh as <- _. reflexivity.
Qed.

Lemma gbSend_reports_in (throws : line T -> bool) (m m' : Message.msg T) :
  In m' (reports (gbSend throws m)) -> m' = m.
Proof.
  rewrite gbSend_reports.
  destruct (throws Empty || throws (Json m)); cbn; [tauto|].
  intros [<-|[]]. reflexivity.
Qed.

Lemma updateAcceleration_peak (g : Globals T) (accel : Accel.t T) :
  max_acceleration (updateAcceleration g accel) = max_acceleration g
  \/ max_acceleration (updateAcceleration g accel) = snd (filter g accel).
Proof.
  rewrite updateAcceleration_eq. destruct (filter_frame g accel) as [Hm _].
  unfold consider.
  destruct (gt (Accel.mag (snd (filter g accel)))
              (Accel.mag (max_acceleration (fst (filter g accel)))));
    [right; reflexivity|left; exact Hm].
Qed.

Lemma run_reports_origin (evs : list event) (g : Globals T)
  (m : Message.msg T) :
  In m (reports (snd (run g evs))) ->
  Message.t m = "accel"%string
  /\ (Message.accel m = max_acceleration g
      \/ Message.accel m = zero_accel
      \/ In (Message.accel m) (run_filtered g evs)
      \/ In (Message.accel m) (live_reads evs)).
Proof.
  revert g. induction evs as [|ev evs IH]; intros g; [intros []|].
  cbn [run].
  destruct (handle g ev) as [g1 out1] eqn:Hh.
  specialize (IH g1).
  destruct (run g1 evs) as [g2 out2]. cbn [snd] in *.
  rewrite reports_app, in_app_iff.
  destruct ev as [accel|env]; cbn in Hh.
  - injection Hh as <- <-. cbn [reports run_filtered live_reads].
    intros [[]|Hin]. destruct (IH Hin) as [Ht Ho]. split; [exact Ht|].
    destruct Ho as [Ho|[Ho|[Ho|Ho]]].
    + destruct (updateAcceleration_peak g accel) as [E|E]; rewrite E in Ho.
      * left. exact Ho.
      * right. right. left. left. symmetry. exact Ho.
    + right. left. exact Ho.
    + right. right. left. right. exact Ho.
    + right. right. right. exact Ho.
  - unfold sendAccelerationData in Hh. injection Hh as <- <-.
    cbn [run_filtered live_reads sendAccelerationData fst].
    intros [Hin|Hin].
    + apply gbSend_reports_in in Hin. subst m. split; [reflexivity|].
      cbn [Message.accel]. destruct (hasData g).
      * left. reflexivity.
      * right. right. right. left. reflexivity.
    + destruct (IH Hin) as [Ht Ho]. split; [exact Ht|].
      cbn [max_acceleration] in Ho.
      destruct Ho as [Ho|[Ho|[Ho|Ho]]].
      * right. left. exact Ho.
      * right. left. exact Ho.
      * right. right. left. exact Ho.
      * right. right. right. right. exact Ho.
Qed.

End Reports.

(** X11.  Over any run of the event loop from startup, [hasData] tells
    whether a sample has arrived since the last tick (or since startup
    when no tick has come), and while it is false the stored peak is the
    zero vector. *)
Theorem hasData_tells_samples_since_last_tick
  (T : Type) (N : Num T) (evs : list (@event T)) :
  let g := fst (run initial evs) in
  hasData g = pending false evs
  /\ (hasData g = false -> max_acceleration g = zero_accel).
Proof.
  cbv zeta. split.
  - apply (run_pending evs initial).
  - apply (peak_inv_run evs initial). apply peak_inv_initial.
Qed.

(** X12.  The program reports nothing it made up: every message printed
    during a run from startup has the type "accel" and carries the zero
    vector, a vector [filter] returned for a sample of the run, or a
    sample [Bangle.getAccel()] returned at a tick of the run. *)
Theorem reports_are_peaks_or_live_reads
  (T : Type) (N : Num T) (evs : list (@event T)) (m : Message.msg T) :
  In m (reports (snd (run initial evs))) ->
  Message.t m = "accel"%string
  /\ (Message.accel m = zero_accel
      \/ In (Message.accel m) (run_filtered initial evs)
      \/ In (Message.accel m) (live_reads evs)).
Proof.
  intros Hin. destruct (run_reports_origin evs initial m Hin) as [Ht Ho].
  split; [exact Ht|].
  destruct Ho as [Ho|[Ho|[Ho|Ho]]]; [left; exact Ho|left; exact Ho| |].
  - right. left. exact Ho.
  - right. right. exact Ho.
Qed.

Lemma reports_are_peaks_or_live_reads_witness :
  let env := {| getAccel := Accel.mk 0%float 0%float 1%float 1%float;
                println_throws := fun _ => false |} in
  let m := Message.mk "accel" (Accel.mk 0%float 0%float 1%float 1%float) in
  Message.t m = "accel"%string
  /\ (Message.accel m = zero_accel
      \/ In (Message.accel m) (run_filtered initial [IntervalTick env])
      \/ In (Message.accel m) (live_reads [IntervalTick env])).
Proof.
  exact (@reports_are_peaks_or_live_reads float float_Num
    [IntervalTick {| getAccel := Accel.mk 0%float 0%float 1%float 1%float;
                     println_throws := fun _ => false |}]
    (Message.mk "accel" (Accel.mk 0%float 0%float 1%float 1%float))
    (or_introl eq_refl)).
Defined.

(** ** A sensor at rest, in binary64 *)

Section AtRest.

Lemma feed_as_run (samples : list (Accel.t float)) (g : Globals float) :
  feed g samples = fst (run g (map AccelEvent samples)).
Proof.
  revert g. induction samples as [|a samples IH]; intros g; [reflexivity|].
  cbn [feed fold_left map run handle].
  specialize (IH (updateAcceleration g a)). unfold feed in IH. rewrite IH.
  destruct (run (updateAcceleration g a) (map AccelEvent samples)).
  reflexivity.
Qed.

Lemma samples_of_map (samples : list (Accel.t float)) :
  samples_of (map AccelEvent samples) = samples.
Proof.
  induction samples as [|a samples IH]; [reflexivity|].
  cbn. rewrite IH. reflexivity.
Qed.

Lemma axis_inputs_repeat (axis : Accel.t float -> float)
  (accel : Accel.t float) (n : nat) :
  axis_inputs axis (repeat accel n) = repeat (axis accel, zero) n.
Proof. unfold axis_inputs. apply map_repeat. Qed.

(** The value [filter(z)] returns on a default filter after [n] calls
    with the same finite [z]. *)
Lemma repeated_call_returns (z : float) (n : nat) :
  is_finite z = true ->
  let x := snd (KalmanFilter.filter1
                  (KalmanFilter.filter_n (@KalmanFilter.new float _) z n) z) in
  PrimFloat.eqb x z = true /\ (x * x)%float = (z * z)%float.
Proof.
  intros Hz x.
  assert (Ex : x = KalmanFilter.x
                     (KalmanFilter.filter_n (@KalmanFilter.new float _) z
                        (S n))).
  { rewrite filter_n_S_last. unfold x, KalmanFilter.filter1,
      KalmanFilter.filter.
    destruct (isNaN _); reflexivity. }
  destruct (binary64_default_estimate z n Hz) as (_ & He & _ & Hm).
  cbv zeta in He, Hm. rewrite <- Ex in He, Hm.
  split; [exact He|].
  destruct Hm as [->|[-> ->]]; reflexivity.
Qed.

End AtRest.

(** X13.  In binary64, a sensor at rest is reported as it is: when every
    sample since startup has been the same vector of finite components,
    the vector [filter] returns for the next such sample has components
    equal to the sample's (as [==] tells: a component -0 may come back
    as +0) and the magnitude [Math.sqrt(x*x + y*y + z*z)] of the sample,
    bit for bit. *)
Theorem resting_sensor_is_reported_as_it_is
  (accel : Accel.t float) (n : nat) :
  finite_sample accel = true ->
  let f := snd (filter (feed initial (repeat accel n)) accel) in
  PrimFloat.eqb (Accel.x f) (Accel.x accel) = true
  /\ PrimFloat.eqb (Accel.y f) (Accel.y accel) = true
  /\ PrimFloat.eqb (Accel.z f) (Accel.z accel) = true
  /\ Accel.mag f
     = PrimFloat.sqrt (Accel.x accel * Accel.x accel
                       + Accel.y accel * Accel.y accel
                       + Accel.z accel * Accel.z accel)%float.
Proof.
  intros Hfin f. unfold finite_sample in Hfin.
  apply andb_true_iff in Hfin. destruct Hfin as [Hfin Hz].
  apply andb_true_iff in Hfin. destruct Hfin as [Hx Hy].
  pose proof (run_axes (map AccelEvent (repeat accel n)) initial)
    as (EX & EY & EZ).
  rewrite <- feed_as_run, samples_of_map, axis_inputs_repeat in EX, EY, EZ.
  change (filterX initial) with (@KalmanFilter.new float _) in EX.
  change (filterY initial) with (@KalmanFilter.new float _) in EY.
  change (filterZ initial) with (@KalmanFilter.new float _) in EZ.
  destruct (repeated_call_returns (Accel.x accel) n Hx) as [HX1 HX2].
  destruct (repeated_call_returns (Accel.y accel) n Hy) as [HY1 HY2].
  destruct (repeated_call_returns (Accel.z accel) n Hz) as [HZ1 HZ2].
  unfold KalmanFilter.filter_n in HX1, HX2, HY1, HY2, HZ1, HZ2.
  rewrite <- EX in HX1, HX2. rewrite <- EY in HY1, HY2.
  rewrite <- EZ in HZ1, HZ2.
  unfold f, filter.
  destruct (KalmanFilter.filter1 (filterX (feed initial (repeat accel n)))
              (Accel.x accel)) as [kx fx].
  destruct (KalmanFilter.filter1 (filterY (feed initial (repeat accel n)))
              (Accel.y accel)) as [ky fy].
  destruct (KalmanFilter.filter1 (filterZ (feed initial (repeat accel n)))
              (Accel.z accel)) as [kz fz].
  cbn [snd Accel.x Accel.y Accel.z Accel.mag] in *.
  repeat split; try assumption.
  change (Math_sqrt (fx * fx + fy * fy + fz * fz)%js)
    with (PrimFloat.sqrt (fx * fx + fy * fy + fz * fz)%float).
  rewrite HX2, HY2, HZ2. reflexivity.
Qed.

Lemma resting_sensor_is_reported_as_it_is_witness :
  Accel.mag
    (snd (filter (feed initial
                    (repeat (Accel.mk 0%float 0%float 1%float 1%float) 3))
            (Accel.mk 0%float 0%float 1%float 1%float)))
  = PrimFloat.sqrt (0 * 0 + 0 * 0 + 1 * 1)%float.
Proof.
  exact (proj2 (proj2 (proj2 (resting_sensor_is_reported_as_it_is
    (Accel.mk 0%float 0%float 1%float 1%float) 3 eq_refl)))).
Defined.
